(** * PM-table field analysis: a shallow embedding of
      [scripts/analyze_pm_table.py] and [scripts/analyze_temps.py]

    Both scripts read an opaque table of little-endian binary32 fields and
    look for offsets whose values are physically plausible.  Python's [float]
    is IEEE-754 binary64; it is modelled by the Standard Library's
    [spec_float] at precision 53, whose operations are ordinary computable
    functions on [Z] and [positive].  Python's [int] is [Z], [bytes] is
    [list byte], and a raised exception is an explicit outcome. *)

From Stdlib Require Import ZArith List Bool Lia SpecFloat.
From Stdlib.Strings Require Import Byte.
From Stdlib Require Import Permutation Sorted.
From Stdlib Require String DecimalString.
Import ListNotations.
Import String.StringSyntax.
Delimit Scope string_scope with string.
Local Open Scope Z_scope.

(** ** Exceptions and the outcome of a call *)

Inductive pyexn : Type :=
| StructError
| ZeroDivisionError
| ValueError
| TypeError.

Inductive outcome (A : Type) : Type :=
| Return (a : A)
| Raise (e : pyexn).

Arguments Return {A} a.
Arguments Raise {A} e.

Definition bind {A B : Type} (c : outcome A) (k : A -> outcome B) : outcome B :=
  match c with
  | Return a => k a
  | Raise e => Raise e
  end.

Notation "x <- c ;; k" := (bind c (fun x => k))
  (at level 61, c at next level, right associativity).

(** [for x in xs: body], threading the loop's local state. *)
Fixpoint for_each {A S : Type} (body : A -> S -> outcome S)
  (xs : list A) (s : S) : outcome S :=
  match xs with
  | [] => Return s
  | x :: rest => s' <- body x s ;; for_each body rest s'
  end.

(** A list comprehension whose element expression may raise. *)
Fixpoint comprehension {A B : Type} (f : A -> outcome B) (xs : list A)
  : outcome (list B) :=
  match xs with
  | [] => Return []
  | x :: rest => y <- f x ;; ys <- comprehension f rest ;; Return (y :: ys)
  end.

(** ** Python floats *)

Module PyFloat.

Definition prec : Z := 53.
Definition emax : Z := 1024.

Definition float : Type := spec_float.

(** [float(z)] for an integer literal, and a literal [m * 2^e]. *)
Definition of_int (z : Z) : float := binary_normalize prec emax z 0 false.
Definition of_dyadic (m e : Z) : float := binary_normalize prec emax m e false.

Definition zero : float := S754_zero false.

Definition lt (x y : float) : bool := SFltb x y.
Definition gt (x y : float) : bool := SFltb y x.
Definition eq (x y : float) : bool := SFeqb x y.
Definition add (x y : float) : float := SFadd prec emax x y.
Definition sub (x y : float) : float := SFsub prec emax x y.

(** [x / n] for an integer [n]: raises on [n = 0], otherwise divides by
    [float(n)]. *)
Definition truediv (x : float) (n : Z) : outcome float :=
  if n =? 0 then Raise ZeroDivisionError
  else Return (SFdiv prec emax x (of_int n)).

(** [bool(x)]: every float but the two zeros is true, NaN included. *)
Definition truth (x : float) : bool := negb (eq x zero).

(** [lo < v < hi], a chained comparison. *)
Definition between (lo hi v : float) : bool := lt lo v && lt v hi.

(** [x >= y], the negation of [x < y] away from NaN. *)
Definition ge (x y : float) : bool := SFleb y x.

(** Positive finite floats: what a value strictly above a positive bound
    and strictly below anything is. *)
Definition posfin (x : float) : Prop :=
  match x with
  | S754_finite false _ _ => True
  | _ => False
  end.

End PyFloat.

Import PyFloat.

(** ** Bytes, slices and ranges *)

Definition len {A : Type} (l : list A) : Z := Z.of_nat (length l).

(** Normalisation of one slice bound, as Python does for [l[lo:hi]]. *)
Definition slice_bound (n i : Z) : Z :=
  if i <? 0 then Z.max 0 (i + n) else Z.min i n.

Definition py_slice {A : Type} (l : list A) (lo hi : Z) : list A :=
  let lo' := slice_bound (len l) lo in
  let hi' := slice_bound (len l) hi in
  firstn (Z.to_nat (hi' - lo')) (skipn (Z.to_nat lo') l).

(** [range(start, stop, step)] for a positive step. *)
Definition py_range (start stop step : Z) : list Z :=
  map (fun k => start + step * Z.of_nat k)
      (seq 0 (Z.to_nat ((stop - start + step - 1) / step))).

(** ** [struct.unpack('<f', ...)] *)

Module Binary32.

Definition prec : Z := 24.
Definition emax : Z := 128.

Definition byte_val (b : byte) : Z := Z.of_N (Byte.to_N b).

(** The 32-bit word of four bytes, least significant byte first. *)
Definition word_le (b0 b1 b2 b3 : byte) : Z :=
  byte_val b0 + Z.shiftl (byte_val b1) 8 + Z.shiftl (byte_val b2) 16
  + Z.shiftl (byte_val b3) 24.

Definition sign_bit (w : Z) : bool := Z.testbit w 31.
Definition biased_exp (w : Z) : Z := Z.land (Z.shiftr w 23) 255.
Definition fraction (w : Z) : Z := Z.land w 8388607.

(** The binary32 datum a word denotes. *)
Definition of_word (w : Z) : spec_float :=
  let s := sign_bit w in
  let e := biased_exp w in
  let f := fraction w in
  if e =? 255 then (if f =? 0 then S754_infinity s else S754_nan)
  else if e =? 0 then
    match f with
    | Zpos m => S754_finite s m (-149)
    | _ => S754_zero s
    end
  else
    match f + 8388608 with
    | Zpos m => S754_finite s m (e - 150)
    | _ => S754_nan
    end.

(** Conversion of a binary32 datum to binary64, which is exact. *)
Definition widen (x : spec_float) : float :=
  match x with
  | S754_finite s m e => binary_round PyFloat.prec PyFloat.emax s m e
  | _ => x
  end.

Definition unpack (bs : list byte) : outcome float :=
  match bs with
  | [b0; b1; b2; b3] => Return (widen (of_word (word_le b0 b1 b2 b3)))
  | _ => Raise StructError
  end.

End Binary32.

Arguments Binary32.of_word : simpl never.
Arguments Binary32.widen : simpl never.
Arguments Binary32.word_le : simpl never.
Arguments PyFloat.of_int : simpl never.
Arguments PyFloat.of_dyadic : simpl never.
Arguments PyFloat.add : simpl never.
Arguments PyFloat.sub : simpl never.
Arguments PyFloat.truediv : simpl never.

(** ** [read_f32], identical in both scripts *)

Definition read_f32 (data : list byte) (offset : Z) : outcome (option float) :=
  if len data <? offset + 4 then Return None
  else v <- Binary32.unpack (py_slice data offset (offset + 4)) ;;
       Return (Some v).

(** A value read from the table, used as a condition: [None] and the two
    zeros are false. *)
Definition truthy (value : option float) : bool :=
  match value with
  | None => false
  | Some v => truth v
  end.

(** [value and lo < value < hi]. *)
Definition hit (lo hi : float) (value : option float) : bool :=
  match value with
  | None => false
  | Some v => truth v && between lo hi v
  end.

(** [v is not None and lo < v < hi]. *)
Definition hit_not_none (lo hi : float) (value : option float) : bool :=
  match value with
  | None => false
  | Some v => between lo hi v
  end.

(** Use of a table value where a float is needed (arithmetic, comparison,
    a float format): [None] raises [TypeError]. *)
Definition require (value : option float) : outcome float :=
  match value with
  | Some v => Return v
  | None => Raise TypeError
  end.

(** [sum(values)]: left to right from the integer 0.  (CPython 3.12 and
    later add floats with a compensated sum; the two agree wherever the
    partial sums are exact, as in every example below.) *)
Definition py_sum (values : list (option float)) : outcome float :=
  for_each (fun item acc => v <- require item ;; Return (add acc v)) values zero.

(** [max(values)] and [min(values)]: the first extremal item wins. *)
Definition py_max (values : list (option float)) : outcome float :=
  match values with
  | [] => Raise ValueError
  | first :: rest =>
      m <- require first ;;
      for_each (fun item best =>
                  v <- require item ;; Return (if gt v best then v else best))
               rest m
  end.

Definition py_min (values : list (option float)) : outcome float :=
  match values with
  | [] => Raise ValueError
  | first :: rest =>
      m <- require first ;;
      for_each (fun item best =>
                  v <- require item ;; Return (if lt v best then v else best))
               rest m
  end.

(** [[read_f32(data, base + i * 4) for i in range(n)]]. *)
Definition window (data : list byte) (base n : Z) : outcome (list (option float)) :=
  comprehension (fun i => read_f32 data (base + i * 4)) (py_range 0 n 1).

(** ** [list.sort(key=..., reverse=...)]

    CPython sorts stably with [<] on the keys only; for [reverse=True] it
    reverses the list, sorts it ascending, and reverses the result.  The
    ascending sort is modelled by insertion: each element in turn goes after
    every element of the sorted prefix that is not greater than it. *)

Section ListSort.
Context {A : Type} (key : A -> float).

Fixpoint insort (x : A) (sorted : list A) : list A :=
  match sorted with
  | [] => [x]
  | y :: rest =>
      if lt (key x) (key y) then x :: sorted else y :: insort x rest
  end.

Definition sort_ascending (l : list A) : list A :=
  fold_left (fun acc x => insort x acc) l [].

Definition list_sort (reverse : bool) (l : list A) : list A :=
  if reverse then rev (sort_ascending (rev l)) else sort_ascending l.
End ListSort.

(** ** scripts/analyze_pm_table.py

    The functions print; each is modelled by the sequence of records it
    prints, in print order. *)

Module AnalyzePmTable.

(** [dump_all]: every field of the table. *)
Definition dump_all (data : list byte) : outcome (list (Z * float)) :=
  for_each (fun i out =>
              value <- read_f32 data i ;;
              match value with
              | Some v => Return (out ++ [(i, v)])
              | None => Return out
              end)
           (py_range 0 (len data) 4) [].

(** The loop of [search_temps], [search_power], [search_freq] and
    [search_voltage], which differ in their two bounds only. *)
Definition search_range (lo hi : float) (data : list byte)
  : outcome (list (Z * float)) :=
  for_each (fun i out =>
              value <- read_f32 data i ;;
              if hit lo hi value
              then v <- require value ;; Return (out ++ [(i, v)])
              else Return out)
           (py_range 0 (len data - 4) 4) [].

Definition search_temps := search_range (of_int 30) (of_int 95).
Definition search_power := search_range (of_int 5) (of_int 200).
Definition search_freq := search_range (of_int 1000) (of_int 7000).
Definition search_voltage := search_range (of_dyadic 1 (-1)) (of_int 2).

(** A printed array: base offset, average (absent for frequencies) and the
    formatted per-core values. *)
Record printed_array : Type := {
  pa_base : Z;
  pa_avg : option float;
  pa_values : list float
}.

(** The temperature and the power loop of [search_core_arrays]. *)
Definition strict_arrays (lo hi mean_lo mean_hi : float)
  (data : list byte) (core_count : Z) : outcome (list printed_array) :=
  for_each (fun base out =>
              values <- window data base core_count ;;
              if forallb (hit lo hi) values then
                total <- py_sum values ;;
                avg <- truediv total (len values) ;;
                if between mean_lo mean_hi avg then
                  shown <- comprehension require values ;;
                  Return (out ++ [{| pa_base := base; pa_avg := Some avg;
                                     pa_values := shown |}])
                else Return out
              else Return out)
           (py_range 0 (len data - core_count * 4) 4) [].

(** The frequency loop of [search_core_arrays]. *)
Definition tolerant_arrays (lo hi : float)
  (data : list byte) (core_count : Z) : outcome (list printed_array) :=
  for_each (fun base out =>
              values <- window data base core_count ;;
              let valid := len (filter (hit lo hi) values) in
              if core_count - 2 <=? valid then
                shown <- comprehension require values ;;
                Return (out ++ [{| pa_base := base; pa_avg := None;
                                   pa_values := shown |}])
              else Return out)
           (py_range 0 (len data - core_count * 4) 4) [].

Definition temperature_arrays :=
  strict_arrays (of_int 25) (of_int 95) (of_int 30) (of_int 70).
Definition power_arrays :=
  strict_arrays (of_dyadic 1 (-1)) (of_int 20) (of_int 2) (of_int 15).
Definition frequency_arrays :=
  tolerant_arrays (of_int 400) (of_int 6000).

Record core_arrays : Type := {
  temperature : list printed_array;
  power : list printed_array;
  frequency : list printed_array
}.

Definition search_core_arrays (data : list byte) (core_count : Z)
  : outcome core_arrays :=
  t <- temperature_arrays data core_count ;;
  p <- power_arrays data core_count ;;
  f <- frequency_arrays data core_count ;;
  Return {| temperature := t; power := p; frequency := f |}.

(** The label [dump_all] appends to a line: the first range of the [elif]
    chain that holds the value. *)
Definition dump_label (value : float) : String.string :=
  if between (of_int 150) (of_int 170) value
  then " <- possible PPT limit"%string
  else if between (of_int 200) (of_int 250) value
  then " <- possible EDC limit"%string
  else if between (of_int 90) (of_int 100) value
  then " <- possible TDC limit"%string
  else if between (of_int 1500) (of_int 3500) value
  then " <- possible FCLK/MCLK"%string
  else if between (of_int 4000) (of_int 6500) value
  then " <- possible core freq"%string
  else ""%string.

(** A line of [dump_all]: offset, field number [i // 4], value, label. *)
Record dump_line : Type := {
  dl_offset : Z;
  dl_field : Z;
  dl_value : float;
  dl_label : String.string
}.

(** [dump_all] with everything a line shows. *)
Definition dump_all_lines (data : list byte) : outcome (list dump_line) :=
  for_each (fun i out =>
              value <- read_f32 data i ;;
              match value with
              | Some v =>
                  Return (out ++ [{| dl_offset := i; dl_field := i / 4;
                                     dl_value := v;
                                     dl_label := dump_label v |}])
              | None => Return out
              end)
           (py_range 0 (len data) 4) [].

(** [read_pm_version]: [file] is the content of the version file, [None]
    when opening it fails.  [f.read(4)] gives at most four bytes; any
    exception, a short read included, is caught and gives 0. *)
Definition read_pm_version (file : option (list byte)) : Z :=
  match file with
  | None => 0
  | Some content =>
      match firstn 4 content with
      | [b0; b1; b2; b3] => Binary32.word_le b0 b1 b2 b3
      | _ => 0
      end
  end.

Definition CODENAME_MAP : list (Z * String.string) :=
  [(0, "Unsupported"); (1, "Colfax"); (2, "Renoir"); (3, "Picasso");
   (4, "Matisse"); (5, "Threadripper"); (6, "Castle Peak"); (7, "Raven");
   (8, "Raven 2"); (9, "Summit Ridge"); (10, "Pinnacle Ridge");
   (11, "Rembrandt"); (12, "Vermeer"); (13, "Van Gogh"); (14, "Cezanne");
   (15, "Milan"); (16, "Dali"); (17, "Lucienne"); (18, "Naples");
   (19, "Chagall"); (20, "Raphael"); (21, "Phoenix"); (22, "Hawk Point");
   (23, "Granite Ridge"); (24, "Strix Point"); (25, "Storm Peak")]%string.

(** [d.get(key)] on a dictionary given by its items. *)
Definition dict_get {V : Type} (d : list (Z * V)) (key : Z) : option V :=
  option_map snd (find (fun kv => fst kv =? key) d).

(** [str(z)] for an integer. *)
Definition str_of_int (z : Z) : String.string :=
  DecimalString.NilZero.string_of_int (Z.to_int z).

(** The codename [print_header] shows:
    [CODENAME_MAP.get(codename_id, f"Unknown ({codename_id})")]. *)
Definition codename (codename_id : Z) : String.string :=
  match dict_get CODENAME_MAP codename_id with
  | Some name => name
  | None =>
      String.append "Unknown (" (String.append (str_of_int codename_id) ")")
  end.

(** The loop of [compare_cpuinfo] over the table, for the sample frequency
    [freqs[0]]: the fields it reports; [found] is whether there is one. *)
Definition cpuinfo_scan (sample : float) (data : list byte)
  : outcome (list (Z * float)) :=
  for_each (fun i out =>
              value <- read_f32 data i ;;
              match value with
              | Some v =>
                  if truth v && lt (SFabs (sub v sample)) (of_int 100)
                  then Return (out ++ [(i, v)])
                  else Return out
              | None => Return out
              end)
           (py_range 0 (len data - 4) 4) [].

End AnalyzePmTable.

(** ** scripts/analyze_temps.py *)

Module AnalyzeTemps.

(** The loop that fills [candidates] in [search_tctl] and
    [search_soc_temp]. *)
Definition collect (lo hi : float) (data : list byte)
  : outcome (list (Z * float)) :=
  for_each (fun i candidates =>
              value <- read_f32 data i ;;
              if hit lo hi value
              then v <- require value ;; Return (candidates ++ [(i, v)])
              else Return candidates)
           (py_range 0 (len data - 4) 4) [].

Definition search_tctl (data : list byte) : outcome (list (Z * float)) :=
  candidates <- collect (of_int 40) (of_int 95) data ;;
  Return (list_sort snd true candidates).

Definition search_soc_temp (data : list byte) : outcome (list (Z * float)) :=
  collect (of_int 30) (of_int 70) data.

Record candidate : Type := {
  base : Z;
  values : list (option float);
  avg : float;
  spread : float
}.

Definition scan_core_temps (data : list byte) (num_cores : Z)
  : outcome (list candidate) :=
  for_each (fun base candidates =>
              values <- window data base num_cores ;;
              if forallb (hit_not_none (of_int 25) (of_int 100)) values then
                total <- py_sum values ;;
                avg <- truediv total (len values) ;;
                hi <- py_max values ;;
                lo <- py_min values ;;
                let spread := sub hi lo in
                if between (of_int 35) (of_int 85) avg && lt spread (of_int 30)
                then Return (candidates ++
                               [{| base := base; values := values;
                                   avg := avg; spread := spread |}])
                else Return candidates
              else Return candidates)
           (py_range 0 (len data - num_cores * 4) 4) [].

Definition search_core_temps (data : list byte) (num_cores : Z)
  : outcome (list candidate) :=
  candidates <- scan_core_temps data num_cores ;;
  Return (list_sort avg true candidates).

(** One iteration of the loop of [watch_temps]: the pairs of the line it
    prints, [(o, v) for o, v in zip(offsets, values) if v]. *)
Definition watch_tick (data : list byte) (offsets : list Z)
  : outcome (list (Z * float)) :=
  values <- comprehension (read_f32 data) offsets ;;
  comprehension (fun ov => v <- require (snd ov) ;; Return (fst ov, v))
                (filter (fun ov => truthy (snd ov)) (combine offsets values)).

(** [watch_temps] over the snapshots [data_getter] supplies before the
    interrupt. *)
Definition watch_temps (snapshots : list (list byte)) (offsets : list Z)
  : outcome (list (list (Z * float))) :=
  comprehension (fun data => watch_tick data offsets) snapshots.

End AnalyzeTemps.

(** ** [struct.pack('<f', ...)]

    The inverse direction, for a binary32 datum.  The scripts never call
    it; it builds the tables of the examples and states the round trip. *)

Module Pack.
Import Binary32.

Definition byte_of (z : Z) : byte :=
  match Byte.of_N (Z.to_N (z mod 256)) with
  | Some x => x
  | None => x00
  end.

Definition word_bytes (w : Z) : list byte :=
  [byte_of w; byte_of (Z.shiftr w 8); byte_of (Z.shiftr w 16);
   byte_of (Z.shiftr w 24)].

Definition sign_word (s : bool) : Z := if s then 2147483648 else 0.

(** The word of a binary32 datum in canonical form. *)
Definition to_word (x : spec_float) : Z :=
  match x with
  | S754_zero s => sign_word s
  | S754_infinity s => sign_word s + 2139095040
  | S754_nan => 2143289344
  | S754_finite s m e =>
      if Zpos m <? 8388608 then sign_word s + Zpos m
      else sign_word s + Z.shiftl (e + 150) 23 + (Zpos m - 8388608)
  end.

Definition pack (x : spec_float) : list byte := word_bytes (to_word x).

(** The binary32 datum nearest to a literal [m * 2^e]. *)
Definition f32 (m e : Z) : spec_float :=
  binary_normalize Binary32.prec Binary32.emax m e false.

Definition table (xs : list spec_float) : list byte := flat_map pack xs.

(** A binary32 datum with a finite value, in canonical form. *)
Definition encodable (x : spec_float) : Prop :=
  match x with
  | S754_zero _ => True
  | S754_finite _ m e => bounded Binary32.prec Binary32.emax m e = true
  | _ => False
  end.
End Pack.

(** ** Definitions used to state the properties *)

Import Pack.

Section SortOrder.
Context {A : Type} (key : A -> float) (pos : A -> Z).

(** The order an ascending stable sort produces from a list given in
    descending position. *)
Definition before_asc (a b : A) : Prop :=
  lt (key a) (key b) = true \/ (key a = key b /\ pos b < pos a).

(** The order of [list_sort key true] on a list given in ascending
    position: greater key first, equal keys in position order. *)
Definition before_desc (a b : A) : Prop :=
  lt (key b) (key a) = true \/ (key b = key a /\ pos a < pos b).
End SortOrder.

Definition byte_at (data : list byte) (i : Z) : byte :=
  nth (Z.to_nat i) data x00.

(** The four bytes of the field at offset [i]. *)
Definition bytes4 (data : list byte) (i : Z) : list byte :=
  [byte_at data i; byte_at data (i + 1); byte_at data (i + 2);
   byte_at data (i + 3)].

(** What [read_f32] returns at a non-negative offset. *)
Definition field (data : list byte) (i : Z) : option float :=
  if len data <? i + 4 then None
  else Some (Binary32.widen
               (Binary32.of_word
                  (Binary32.word_le (byte_at data i) (byte_at data (i + 1))
                     (byte_at data (i + 2)) (byte_at data (i + 3))))).

(** The values of the window at [base], as [read_f32] returns them. *)
Definition fields (data : list byte) (base n : Z) : list (option float) :=
  map (fun i => field data (base + i * 4)) (py_range 0 n 1).

(** The records the scan loop adds at offset [i]. *)
Definition matches (lo hi : float) (data : list byte) (i : Z)
  : list (Z * float) :=
  match field data i with
  | Some v => if truth v && between lo hi v then [(i, v)] else []
  | None => []
  end.

(** The offsets the scan loops visit. *)
Definition scanned (data : list byte) : list Z :=
  py_range 0 (len data - 4) 4.

(** The floats [50.0, 96.0, 10.0, 45.0]: 16 bytes. *)
Definition four_fields : list byte :=
  table [f32 50 0; f32 96 0; f32 10 0; f32 45 0].

(** [95.0, 50.0] and a trailing field. *)
Definition boundary_fields : list byte :=
  table [f32 95 0; f32 50 0; f32 0 0].

(** A reading of [70.0] followed by a reading of [0.0]. *)
Definition zero_reading : list byte := table [f32 70 0; f32 0 0].

(** The base offsets the array loops visit. *)
Definition bases (data : list byte) (n : Z) : list Z :=
  py_range 0 (len data - n * 4) 4.

(** [avg] is [sum(values) / len(values)]. *)
Definition mean_of (values : list (option float)) (avg : float) : Prop :=
  exists total,
    py_sum values = Return total /\ truediv total (len values) = Return avg.

(** [spread] is [max(values) - min(values)]. *)
Definition spread_of (values : list (option float)) (spread : float) : Prop :=
  exists hi lo,
    py_max values = Return hi /\ py_min values = Return lo /\
    spread = sub hi lo.

(** What holds of a candidate [search_core_temps] has appended. *)
Definition accepted_temps (data : list byte) (n : Z)
  (c : AnalyzeTemps.candidate) : Prop :=
  In (AnalyzeTemps.base c) (bases data n) /\
  window data (AnalyzeTemps.base c) n = Return (AnalyzeTemps.values c) /\
  forallb (hit_not_none (of_int 25) (of_int 100)) (AnalyzeTemps.values c)
  = true /\
  mean_of (AnalyzeTemps.values c) (AnalyzeTemps.avg c) /\
  spread_of (AnalyzeTemps.values c) (AnalyzeTemps.spread c) /\
  between (of_int 35) (of_int 85) (AnalyzeTemps.avg c) = true /\
  lt (AnalyzeTemps.spread c) (of_int 30) = true.

(** What holds of an array the temperature or power loop has printed. *)
Definition accepted_strict (lo hi mean_lo mean_hi : float)
  (data : list byte) (n : Z) (pa : AnalyzePmTable.printed_array) : Prop :=
  In (AnalyzePmTable.pa_base pa) (bases data n) /\
  window data (AnalyzePmTable.pa_base pa) n
  = Return (map Some (AnalyzePmTable.pa_values pa)) /\
  forallb (hit lo hi) (map Some (AnalyzePmTable.pa_values pa)) = true /\
  exists a,
    AnalyzePmTable.pa_avg pa = Some a /\
    mean_of (map Some (AnalyzePmTable.pa_values pa)) a /\
    between mean_lo mean_hi a = true.

(** The floats of a window whose fields are all present. *)
Definition present (values : list (option float)) : list float :=
  flat_map (fun v => match v with Some x => [x] | None => [] end) values.

(** The record the frequency loop prints at [base], if any. *)
Definition tolerant_at (lo hi : float) (data : list byte) (n base : Z)
  : list AnalyzePmTable.printed_array :=
  if n - 2 <=? len (filter (hit lo hi) (fields data base n))
  then [{| AnalyzePmTable.pa_base := base;
           AnalyzePmTable.pa_avg := None;
           AnalyzePmTable.pa_values := present (fields data base n) |}]
  else [].

(** One window of two cores at 50.0 and 52.0, and a trailing field. *)
Definition steady_cores : list byte := table [f32 50 0; f32 52 0; f32 0 0].

(** Two cores at 26.0 and 90.0: mean 58.0, spread 64.0. *)
Definition wide_spread : list byte := table [f32 26 0; f32 90 0; f32 0 0].

(** Windows of two cores whose means rise with the offset: 45.0 then 55.0. *)
Definition rising_means : list byte :=
  table [f32 40 0; f32 50 0; f32 60 0; f32 0 0].

(** Eight cores, six at about 3000 MHz and two idle at 0. *)
Definition eight_cores : list byte :=
  table [f32 3000 0; f32 3100 0; f32 2900 0; f32 3000 0; f32 3200 0;
         f32 3000 0; f32 0 0; f32 0 0; f32 0 0].

(** The same with only five cores in range. *)
Definition five_valid : list byte :=
  table [f32 3000 0; f32 3100 0; f32 2900 0; f32 3000 0; f32 3200 0;
         f32 0 0; f32 0 0; f32 0 0; f32 0 0].

(** The line [dump_all] prints at offset [i]. *)
Definition dump_at (data : list byte) (i : Z)
  : list AnalyzePmTable.dump_line :=
  match field data i with
  | Some v => [{| AnalyzePmTable.dl_offset := i;
                  AnalyzePmTable.dl_field := i / 4;
                  AnalyzePmTable.dl_value := v;
                  AnalyzePmTable.dl_label := AnalyzePmTable.dump_label v |}]
  | None => []
  end.

(** The fields the loop of [compare_cpuinfo] reports at offset [i]. *)
Definition cpuinfo_at (sample : float) (data : list byte) (i : Z)
  : list (Z * float) :=
  match field data i with
  | Some v =>
      if truth v && lt (SFabs (sub v sample)) (of_int 100)
      then [(i, v)] else []
  | None => []
  end.

(** * Properties *)

(** ** Outcomes and loops *)

Lemma bind_Return {A B : Type} (c : outcome A) (k : A -> outcome B) (r : B) :
  bind c k = Return r -> exists a, c = Return a /\ k a = Return r.
Proof.
  destruct c as [a|e]; simpl; intros H; [exists a; split; auto | discriminate].
Qed.

(** Splits a hypothesis [x <- c ;; k = Return r] into its two steps. *)
Tactic Notation "unbind" hyp(H) "as" ident(a) ident(Ha) :=
  apply bind_Return in H; destruct H as [a [Ha H]].

(** A loop invariant that may mention the items already visited. *)
Lemma for_each_invariant {A S : Type} (P : list A -> S -> Prop)
  (body : A -> S -> outcome S) (xs : list A) :
  (forall visited x rest s s',
      xs = visited ++ x :: rest ->
      P visited s -> body x s = Return s' -> P (visited ++ [x]) s') ->
  forall s s', P [] s -> for_each body xs s = Return s' -> P xs s'.
Proof.
  intros Hbody.
  assert (G : forall rest visited s s',
             xs = visited ++ rest -> P visited s ->
             for_each body rest s = Return s' -> P xs s').
  { induction rest as [|x rest IH]; simpl; intros visited s s' Hxs Hs Hrun.
    - inversion Hrun; subst. now rewrite app_nil_r.
    - unbind Hrun as a Ha. apply (IH (visited ++ [x]) a s'); auto.
      + now rewrite <- app_assoc.
      + apply (Hbody visited x rest s a); auto. }
  intros s s'. apply (G xs []). reflexivity.
Qed.

(** Reduces a fact about a finished loop to an invariant of its body. *)
Ltac loop_invariant Hrun P :=
  match type of Hrun with
  | for_each ?body ?xs ?s = Return ?s' =>
      cut (P xs s'); [|refine (for_each_invariant P body xs _ s s' _ Hrun)]
  end.

Lemma for_each_append {A B : Type} (body : A -> list B -> outcome (list B))
  (f : A -> list B) (xs : list A) :
  (forall x out, In x xs -> body x out = Return (out ++ f x)) ->
  forall out, for_each body xs out = Return (out ++ flat_map f xs).
Proof.
  induction xs as [|x rest IH]; simpl; intros Hbody out.
  - now rewrite app_nil_r.
  - rewrite Hbody by auto. simpl. rewrite IH by auto.
    now rewrite app_assoc.
Qed.

Lemma comprehension_map {A B : Type} (f : A -> outcome B) (g : A -> B)
  (xs : list A) :
  (forall x, In x xs -> f x = Return (g x)) ->
  comprehension f xs = Return (map g xs).
Proof.
  induction xs as [|x rest IH]; simpl; intros Hf; auto.
  rewrite Hf by auto. simpl. rewrite IH by auto. reflexivity.
Qed.

Lemma comprehension_Return {A B : Type} (f : A -> outcome B) (xs : list A)
  (ys : list B) :
  comprehension f xs = Return ys ->
  Forall2 (fun x y => f x = Return y) xs ys.
Proof.
  revert ys; induction xs as [|x rest IH]; simpl; intros ys H.
  - inversion H; constructor.
  - unbind H as y Hy. unbind H as zs Hzs. inversion H; subst.
    constructor; auto.
Qed.

Lemma require_Return (v : option float) (x : float) :
  require v = Return x -> v = Some x.
Proof. destruct v; simpl; intros H; inversion H; reflexivity. Qed.

Lemma comprehension_require (values : list (option float)) (shown : list float) :
  comprehension require values = Return shown -> values = map Some shown.
Proof.
  intros H. apply comprehension_Return in H.
  induction H as [|v x vs xs Hv _ IH]; simpl; auto.
  apply require_Return in Hv. now rewrite Hv, IH.
Qed.

(** ** Ranges *)

Lemma len_nonneg {A : Type} (l : list A) : 0 <= len l.
Proof. unfold len; lia. Qed.

Lemma In_py_range (start stop step i : Z) :
  0 < step ->
  In i (py_range start stop step) <->
  start <= i < stop /\ (i - start) mod step = 0.
Proof.
  intros Hstep. unfold py_range. rewrite in_map_iff. split.
  - intros [k [Hi Hk]]. apply in_seq in Hk. subst i.
    assert (Hq : Z.of_nat k < (stop - start + step - 1) / step) by lia.
    assert (Hm : step * Z.of_nat k + step <= stop - start + step - 1).
    { pose proof (Z.mul_div_le (stop - start + step - 1) step Hstep). nia. }
    split; [nia|].
    replace (start + step * Z.of_nat k - start) with (Z.of_nat k * step) by ring.
    apply Z.mod_mul; lia.
  - intros [[Hlo Hhi] Hmod].
    apply Z.mod_divide in Hmod; [|lia]. destruct Hmod as [q Hq].
    assert (0 <= q) by nia.
    exists (Z.to_nat q). split; [rewrite Z2Nat.id by lia; lia|].
    apply in_seq. split; [lia|]. simpl.
    assert (q < (stop - start + step - 1) / step); [|lia].
    assert (Hle : step * (q + 1) <= stop - start + step - 1) by nia.
    apply (Z.div_le_lower_bound _ step (q + 1) Hstep) in Hle. lia.
Qed.

Lemma py_range_ascending (start stop step : Z) :
  0 < step -> StronglySorted Z.lt (py_range start stop step).
Proof.
  intros Hstep. unfold py_range.
  generalize (Z.to_nat ((stop - start + step - 1) / step)) as n.
  generalize 0%nat as k0.
  intros k0 n; revert k0; induction n as [|n IH]; intros k0; simpl.
  - constructor.
  - constructor; [apply IH|].
    apply Forall_forall. intros j Hj. apply in_map_iff in Hj.
    destruct Hj as [k [Hk Hin]]. apply in_seq in Hin. subst j. nia.
Qed.

Lemma py_range_length (n : Z) : len (py_range 0 n 1) = Z.max 0 n.
Proof.
  unfold py_range, len. rewrite length_map, length_seq.
  replace (n - 0 + 1 - 1) with n by ring. rewrite Z.div_1_r. lia.
Qed.

(** ** The field decoder *)

Lemma firstn_skipn_4 {A : Type} (d : A) (n : nat) (l : list A) :
  (n + 4 <= length l)%nat ->
  firstn 4 (skipn n l) =
  [nth n l d; nth (S n) l d; nth (S (S n)) l d; nth (S (S (S n))) l d].
Proof.
  revert l; induction n as [|n IH]; intros l Hl.
  - destruct l as [|a0 [|a1 [|a2 [|a3 l]]]]; simpl in Hl; try lia. reflexivity.
  - destruct l as [|a l]; simpl in Hl; [lia|]. simpl skipn.
    rewrite IH by lia. reflexivity.
Qed.

Lemma py_slice_field (data : list byte) (i : Z) :
  0 <= i -> i + 4 <= len data -> py_slice data i (i + 4) = bytes4 data i.
Proof.
  intros Hi Hlen. unfold py_slice, slice_bound, bytes4, byte_at.
  destruct (Z.ltb_spec i 0); [lia|]. destruct (Z.ltb_spec (i + 4) 0); [lia|].
  rewrite !Z.min_l by lia.
  replace (Z.to_nat (i + 4 - i)) with 4%nat by lia.
  unfold len in Hlen.
  rewrite (firstn_skipn_4 x00) by lia.
  replace (Z.to_nat (i + 1)) with (S (Z.to_nat i)) by lia.
  replace (Z.to_nat (i + 2)) with (S (S (Z.to_nat i))) by lia.
  replace (Z.to_nat (i + 3)) with (S (S (S (Z.to_nat i)))) by lia.
  reflexivity.
Qed.

Lemma read_f32_field (data : list byte) (i : Z) :
  0 <= i -> read_f32 data i = Return (field data i).
Proof.
  intros Hi. unfold read_f32, field.
  destruct (Z.ltb_spec (len data) (i + 4)); [reflexivity|].
  rewrite py_slice_field by lia. reflexivity.
Qed.

Lemma read_f32_None (data : list byte) (offset : Z) :
  read_f32 data offset = Return None <-> len data < offset + 4.
Proof.
  unfold read_f32. destruct (Z.ltb_spec (len data) (offset + 4)) as [H|H].
  - tauto.
  - split; [|lia]. intros E.
    destruct (Binary32.unpack _); simpl in E; discriminate.
Qed.

(** *** Packing and unpacking are inverse *)

Module PackFacts.
Import Binary32 Pack.


Lemma byte_val_byte_of (z : Z) : byte_val (byte_of z) = z mod 256.
Proof.
  unfold byte_val, byte_of.
  assert (Hr : 0 <= z mod 256 < 256) by (apply Z.mod_pos_bound; lia).
  destruct (Byte.of_N (Z.to_N (z mod 256))) as [x|] eqn:E.
  - apply Byte.to_of_N in E. rewrite E. lia.
  - apply Byte.of_N_None_iff in E. lia.
Qed.

Lemma word_le_word_bytes (w : Z) :
  0 <= w < 4294967296 ->
  word_le (byte_of w) (byte_of (Z.shiftr w 8)) (byte_of (Z.shiftr w 16))
    (byte_of (Z.shiftr w 24)) = w.
Proof.
  intros Hw. unfold word_le. rewrite !byte_val_byte_of.
  rewrite !Z.shiftl_mul_pow2, !Z.shiftr_div_pow2 by lia.
  change (2 ^ 8) with 256. change (2 ^ 16) with 65536.
  change (2 ^ 24) with 16777216.
  Z.div_mod_to_equations. lia.
Qed.

(** The three bit fields of [sign * 2^31 + e * 2^23 + f]. *)
Lemma fields_of_word (s : bool) (e f : Z) :
  0 <= e < 256 -> 0 <= f < 8388608 ->
  let w := sign_word s + Z.shiftl e 23 + f in
  0 <= w < 4294967296 /\
  sign_bit w = s /\ biased_exp w = e /\ fraction w = f.
Proof.
  intros He Hf w. subst w. unfold sign_bit, biased_exp, fraction.
  rewrite Z.shiftl_mul_pow2 by lia. change (2 ^ 23) with 8388608.
  assert (Hs : sign_word s = 2147483648 * (if s then 1 else 0))
    by (destruct s; reflexivity).
  split; [destruct s; simpl sign_word; lia|].
  rewrite Z.testbit_odd, Z.shiftr_div_pow2 by lia.
  change 255 with (Z.ones 8). change 8388607 with (Z.ones 23).
  rewrite !Z.land_ones, Z.shiftr_div_pow2 by lia.
  change (2 ^ 31) with 2147483648. change (2 ^ 23) with 8388608.
  change (2 ^ 8) with 256.
  repeat split.
  - replace ((sign_word s + e * 8388608 + f) / 2147483648)
      with (if s then 1 else 0);
      [destruct s; reflexivity|].
    destruct s; simpl sign_word; Z.div_mod_to_equations; lia.
  - destruct s; simpl sign_word; Z.div_mod_to_equations; lia.
  - destruct s; simpl sign_word; Z.div_mod_to_equations; lia.
Qed.

Lemma digits2_bounds (m : positive) :
  2 ^ (Zpos (digits2_pos m) - 1) <= Zpos m < 2 ^ Zpos (digits2_pos m).
Proof.
  induction m as [m IH|m IH|]; simpl digits2_pos.
  - rewrite Pos2Z.inj_succ.
    replace (Z.succ (Zpos (digits2_pos m)) - 1)
      with (Z.succ (Zpos (digits2_pos m) - 1)) by lia.
    rewrite !Z.pow_succ_r by lia. lia.
  - rewrite Pos2Z.inj_succ.
    replace (Z.succ (Zpos (digits2_pos m)) - 1)
      with (Z.succ (Zpos (digits2_pos m) - 1)) by lia.
    rewrite !Z.pow_succ_r by lia. lia.
  - simpl. lia.
Qed.

(** The shape of a canonical binary32 mantissa and exponent. *)
Lemma bounded_shape (m : positive) (e : Z) :
  bounded prec emax m e = true ->
  (Zpos m < 8388608 /\ e = -149) \/
  (8388608 <= Zpos m < 16777216 /\ -149 <= e <= 104).
Proof.
  unfold bounded, canonical_mantissa, fexp, emin, prec, emax.
  intros H. apply andb_true_iff in H. destruct H as [Hc He].
  apply Z.eqb_eq in Hc. apply Z.leb_le in He.
  pose proof (digits2_bounds m) as [Hlo Hhi].
  set (d := Zpos (digits2_pos m)) in *.
  assert (Hd : 0 < d) by (subst d; lia).
  destruct (Z_lt_le_dec (Zpos m) 8388608) as [Hm|Hm].
  - left. split; [exact Hm|].
    assert (d - 1 < 23).
    { apply (Z.pow_lt_mono_r_iff 2); lia. }
    lia.
  - right.
    assert (23 < d).
    { apply (Z.pow_lt_mono_r_iff 2); lia. }
    assert (d = 24) by lia.
    assert (Zpos m < 2 ^ 24) by (replace 24 with d by lia; exact Hhi).
    change (2 ^ 24) with 16777216 in *. lia.
Qed.

Lemma to_word_range (x : spec_float) :
  encodable x -> 0 <= to_word x < 4294967296.
Proof.
  destruct x as [s|s| |s m e]; unfold encodable, to_word; try tauto;
    intros H.
  - destruct s; unfold sign_word; lia.
  - destruct (bounded_shape m e H) as [[Hm He]|[Hm He]].
    + destruct (Z.ltb_spec (Zpos m) 8388608); [|lia].
      destruct s; unfold sign_word; lia.
    + destruct (Z.ltb_spec (Zpos m) 8388608); [lia|].
      assert (He' : 0 <= e + 150 < 256) by lia.
      assert (Hf : 0 <= Zpos m - 8388608 < 8388608) by lia.
      exact (proj1 (fields_of_word s (e + 150) (Zpos m - 8388608) He' Hf)).
Qed.

Lemma of_word_to_word (x : spec_float) :
  encodable x -> of_word (to_word x) = x.
Proof.
  destruct x as [s|s| |s m e]; unfold encodable, to_word; try tauto;
    intros H.
  - destruct s; reflexivity.
  - destruct (bounded_shape m e H) as [[Hm He]|[Hm He]].
    + destruct (Z.ltb_spec (Zpos m) 8388608); [|lia].
      assert (He' : 0 <= 0 < 256) by lia.
      assert (Hf : 0 <= Zpos m < 8388608) by lia.
      destruct (fields_of_word s 0 (Zpos m) He' Hf) as [_ [Hs [Hx Hf']]].
      rewrite Z.shiftl_0_l, Z.add_0_r in Hs, Hx, Hf'.
      unfold of_word. rewrite Hs, Hx, Hf'.
      change (0 =? 255) with false. change (0 =? 0) with true.
      cbv iota. now subst e.
    + destruct (Z.ltb_spec (Zpos m) 8388608); [lia|].
      assert (He' : 0 <= e + 150 < 256) by lia.
      assert (Hf : 0 <= Zpos m - 8388608 < 8388608) by lia.
      destruct (fields_of_word s (e + 150) (Zpos m - 8388608) He' Hf)
        as [_ [Hs [Hx Hf']]].
      unfold of_word. rewrite Hs, Hx, Hf'.
      destruct (Z.eqb_spec (e + 150) 255); [lia|].
      destruct (Z.eqb_spec (e + 150) 0); [lia|].
      replace (Zpos m - 8388608 + 8388608) with (Zpos m) by lia.
      now replace (e + 150 - 150) with e by lia.
Qed.

Lemma unpack_pack (x : spec_float) :
  encodable x -> unpack (pack x) = Return (widen x).
Proof.
  intros H. unfold pack, word_bytes, unpack.
  rewrite word_le_word_bytes by (apply to_word_range; exact H).
  now rewrite of_word_to_word.
Qed.

Lemma py_slice_middle {A : Type} (pre mid post : list A) :
  py_slice (pre ++ mid ++ post) (len pre) (len pre + len mid) = mid.
Proof.
  unfold py_slice, slice_bound, len.
  destruct (Z.ltb_spec (Z.of_nat (length pre)) 0); [lia|].
  destruct (Z.ltb_spec (Z.of_nat (length pre) + Z.of_nat (length mid)) 0);
    [lia|].
  rewrite !length_app. rewrite !Z.min_l by lia.
  rewrite Nat2Z.id.
  replace (Z.to_nat (_ + _ - _)) with (length mid) by lia.
  rewrite skipn_app, skipn_all, Nat.sub_diag. simpl.
  rewrite firstn_app, firstn_all, Nat.sub_diag. simpl.
  apply app_nil_r.
Qed.

(** *** Widening to binary64 is exact *)

Lemma digits2_iter_xO (m k : positive) :
  digits2_pos (Pos.iter xO m k) = (digits2_pos m + k)%positive.
Proof.
  induction k as [|k IH] using Pos.peano_ind.
  - simpl. lia.
  - rewrite Pos.iter_succ. simpl. rewrite IH. lia.
Qed.

Lemma iter_xO_value (m k : positive) :
  Zpos (Pos.iter xO m k) = Zpos m * 2 ^ Zpos k.
Proof.
  induction k as [|k IH] using Pos.peano_ind.
  - simpl. lia.
  - rewrite Pos.iter_succ, Pos2Z.inj_succ, Z.pow_succ_r by lia.
    rewrite Pos2Z.inj_xO, IH. ring.
Qed.

(** A binary32 mantissa [m] with exponent [e] becomes the binary64 mantissa
    [m * 2^k] with exponent [e - k], where [k] brings the mantissa to 53
    bits: the same number, in canonical binary64 form. *)
Lemma widen_exact (s : bool) (m : positive) (e : Z) :
  bounded prec emax m e = true ->
  exists k : positive,
    widen (S754_finite s m e) = S754_finite s (Pos.iter xO m k) (e - Zpos k) /\
    Zpos (Pos.iter xO m k) = Zpos m * 2 ^ Zpos k /\
    valid_binary PyFloat.prec PyFloat.emax
      (S754_finite s (Pos.iter xO m k) (e - Zpos k)) = true.
Proof.
  intros Hb.
  assert (Hd : Zpos (digits2_pos m) <= 24).
  { pose proof (digits2_bounds m) as [Hlo _].
    assert (Hm : Zpos m < 2 ^ 24)
      by (change (2 ^ 24) with 16777216;
          destruct (bounded_shape m e Hb); lia).
    assert (Zpos (digits2_pos m) - 1 < 24); [|lia].
    apply (Z.pow_lt_mono_r_iff 2); lia. }
  assert (He : -149 <= e <= 104) by (destruct (bounded_shape m e Hb); lia).
  remember (Z.to_pos (53 - Zpos (digits2_pos m))) as k eqn:Ek.
  assert (Hk : Zpos k = 53 - Zpos (digits2_pos m)) by (subst k; lia).
  assert (Hf : fexp 53 1024 (Zpos (digits2_pos m) + e) = e - Zpos k)
    by (unfold fexp, emin; lia).
  assert (Hf2 : fexp 53 1024 (Zpos (digits2_pos m + k) + (e - Zpos k))
                = e - Zpos k)
    by (unfold fexp, emin; lia).
  exists k. split; [|split].
  - unfold widen, binary_round, PyFloat.prec, PyFloat.emax.
    rewrite Hf. unfold shl_align.
    replace (e - Zpos k - e) with (Zneg k) by lia.
    unfold binary_round_aux, shr_fexp, Zdigits2.
    rewrite digits2_iter_xO, Hf2, Z.sub_diag.
    cbn [shr shr_record_of_loc shr_m loc_of_shr_record round_nearest_even].
    unfold Zdigits2. rewrite digits2_iter_xO, Hf2, Z.sub_diag.
    cbn [shr shr_record_of_loc shr_m].
    destruct (Z.leb_spec (e - Zpos k) (1024 - 53)); [reflexivity | lia].
  - apply iter_xO_value.
  - unfold valid_binary, bounded, canonical_mantissa, PyFloat.prec,
      PyFloat.emax.
    rewrite digits2_iter_xO, Hf2, Z.eqb_refl.
    apply Z.leb_le. lia.
Qed.

End PackFacts.

(** ** The order on floats *)

Module FloatOrder.


Lemma compare_swap (x y : float) :
  SFcompare y x = option_map CompOpp (SFcompare x y).
Proof.
  destruct x as [[]|[]| |[] m1 e1], y as [[]|[]| |[] m2 e2];
    simpl; try reflexivity;
    rewrite (Z.compare_antisym e1 e2);
    destruct (e1 ?= e2); simpl; try reflexivity;
    rewrite (Pos.compare_cont_antisym m1 m2 Eq); simpl;
    try rewrite CompOpp_involutive; reflexivity.
Qed.

Lemma lt_asym (x y : float) : lt x y = true -> lt y x = false.
Proof.
  unfold lt, SFltb. rewrite (compare_swap x y).
  destruct (SFcompare x y) as [[]|]; simpl; congruence.
Qed.

Lemma lt_not_eq (x y : float) :
  lt x y = true -> eq x y = false /\ eq y x = false.
Proof.
  unfold lt, eq, SFltb, SFeqb. rewrite (compare_swap x y).
  destruct (SFcompare x y) as [[]|]; simpl; auto; discriminate.
Qed.

Lemma lt_irrefl (x : float) : lt x x = false.
Proof.
  destruct (lt x x) eqn:E; [|reflexivity].
  now rewrite (lt_asym x x E) in E.
Qed.

Lemma between_posfin (lo hi v : float) :
  posfin lo -> between lo hi v = true -> posfin v.
Proof.
  unfold between, lt, SFltb. intros Hlo H.
  apply andb_true_iff in H. destruct H as [H1 H2].
  destruct lo as [|?| |[] ml el]; simpl in Hlo; try tauto.
  destruct v as [[]|[]| |[] m e]; simpl in *; try discriminate; auto.
  destruct hi as [[]|[]| |[] mh eh]; simpl in *; discriminate.
Qed.

Lemma zero_not_above (lo : float) (s : bool) :
  lt lo zero = false -> lt lo (S754_zero s) = false.
Proof.
  unfold lt, SFltb, zero. destruct lo as [|[]| |[] m e]; simpl; auto.
Qed.

Lemma truth_false_zero (v : float) :
  truth v = false -> exists s, v = S754_zero s.
Proof.
  unfold truth, eq, SFeqb, zero.
  destruct v as [s|[]| |[] m e]; simpl; try discriminate.
  intros _. now exists s.
Qed.

(** On positive finite floats the comparison is lexicographic on exponent
    and mantissa. *)
Lemma lt_posfin (m1 m2 : positive) (e1 e2 : Z) :
  lt (S754_finite false m1 e1) (S754_finite false m2 e2) = true <->
  e1 < e2 \/ (e1 = e2 /\ (m1 < m2)%positive).
Proof.
  unfold lt, SFltb, SFcompare.
  change (Pos.compare_cont Eq m1 m2) with (Pos.compare m1 m2).
  destruct (Z.compare_spec e1 e2); destruct (Pos.compare_spec m1 m2);
    split; intros; try discriminate; try reflexivity; lia.
Qed.

Lemma lt_trans (x y z : float) :
  posfin x -> posfin y -> posfin z ->
  lt x y = true -> lt y z = true -> lt x z = true.
Proof.
  destruct x as [|?| |[] m1 e1]; simpl; try tauto.
  destruct y as [|?| |[] m2 e2]; simpl; try tauto.
  destruct z as [|?| |[] m3 e3]; simpl; try tauto.
  intros _ _ _. rewrite !lt_posfin. lia.
Qed.

Lemma lt_total (x y : float) :
  posfin x -> posfin y ->
  lt x y = false -> lt y x = false -> x = y.
Proof.
  destruct x as [|?| |[] m1 e1]; simpl; try tauto.
  destruct y as [|?| |[] m2 e2]; simpl; try tauto.
  intros _ _ H1 H2.
  assert (N1 : ~ (e1 < e2 \/ (e1 = e2 /\ (m1 < m2)%positive)))
    by (rewrite <- lt_posfin; congruence).
  assert (N2 : ~ (e2 < e1 \/ (e2 = e1 /\ (m2 < m1)%positive)))
    by (rewrite <- lt_posfin; congruence).
  assert (e1 = e2) by lia. subst e2.
  assert (m1 = m2) by lia. now subst m2.
Qed.

Lemma eq_posfin (x y : float) :
  posfin x -> posfin y -> (eq x y = true <-> x = y).
Proof.
  intros Hx Hy. split.
  - intros E. apply lt_total; auto.
    + destruct (lt x y) eqn:L; auto.
      apply lt_not_eq in L. destruct L; congruence.
    + destruct (lt y x) eqn:L; auto.
      apply lt_not_eq in L. destruct L; congruence.
  - intros <-. destruct x as [|?| |[] m e]; simpl in Hx; try tauto.
    unfold eq, SFeqb, SFcompare. rewrite Z.compare_refl.
    change (Pos.compare_cont Eq m m) with (Pos.compare m m).
    now rewrite Pos.compare_refl.
Qed.


Lemma not_lt_ge (x y : float) :
  posfin x -> posfin y -> lt x y = false -> ge x y = true.
Proof.
  destruct x as [|?| |[] m1 e1]; simpl; try tauto.
  destruct y as [|?| |[] m2 e2]; simpl; try tauto.
  intros _ _. unfold lt, ge, SFltb, SFleb.
  rewrite (compare_swap (S754_finite false m1 e1) (S754_finite false m2 e2)).
  destruct (SFcompare _ _) as [[]|] eqn:E; simpl; auto.
  simpl in E. discriminate.
Qed.

Lemma ge_not_lt (x y : float) : ge x y = true -> lt x y = false.
Proof.
  unfold lt, ge, SFltb, SFleb. rewrite (compare_swap x y).
  destruct (SFcompare x y) as [[]|]; simpl; auto; discriminate.
Qed.

End FloatOrder.

Import FloatOrder.

(** ** Sorting *)

Lemma StronglySorted_weaken {A : Type} (R R' : A -> A -> Prop) (l : list A) :
  (forall a b, In a l -> In b l -> R a b -> R' a b) ->
  StronglySorted R l -> StronglySorted R' l.
Proof.
  intros Himp Hs. induction Hs as [|a l Hs IH Hall]; constructor.
  - apply IH. intros x y Hx Hy. apply Himp; now right.
  - rewrite Forall_forall in *. intros y Hy.
    apply Himp; [now left | now right | auto].
Qed.

Lemma StronglySorted_app {A : Type} (R : A -> A -> Prop) (l1 l2 : list A) :
  StronglySorted R l1 -> StronglySorted R l2 ->
  (forall a b, In a l1 -> In b l2 -> R a b) ->
  StronglySorted R (l1 ++ l2).
Proof.
  intros H1 H2 Hc. induction H1 as [|a l H1 IH Hall]; simpl; auto.
  constructor.
  - apply IH. intros x y Hx Hy. apply Hc; [now right | auto].
  - rewrite Forall_forall in *. intros y Hy. apply in_app_or in Hy.
    destruct Hy; [auto | apply Hc; [now left | auto]].
Qed.

Lemma StronglySorted_rev {A : Type} (R : A -> A -> Prop) (l : list A) :
  StronglySorted R l -> StronglySorted (fun a b => R b a) (rev l).
Proof.
  intros Hs. induction Hs as [|a l Hs IH Hall]; simpl; [constructor|].
  apply StronglySorted_app; auto.
  - repeat constructor.
  - rewrite Forall_forall in Hall. intros x y Hx [<-|[]].
    apply Hall. now apply in_rev.
Qed.

Section SortFacts.
Context {A : Type} (key : A -> float) (pos : A -> Z).



Lemma insort_Permutation (x : A) (l : list A) :
  Permutation (insort key x l) (x :: l).
Proof.
  induction l as [|y l IH]; simpl; auto.
  destruct (lt (key x) (key y)); auto.
  rewrite IH. apply perm_swap.
Qed.

Lemma insort_sorted (x : A) (l : list A) :
  posfin (key x) -> Forall (fun y => posfin (key y)) l ->
  Forall (fun y => pos x < pos y) l ->
  StronglySorted (before_asc key pos) l ->
  StronglySorted (before_asc key pos) (insort key x l).
Proof.
  intros Hx Hfin Hpos Hs.
  induction Hs as [|y l Hs IH Hall]; simpl.
  - repeat constructor.
  - inversion Hfin as [|? ? Hy Hfin']; subst.
    inversion Hpos as [|? ? Hpy Hpos']; subst.
    destruct (lt (key x) (key y)) eqn:E.
    + constructor; [constructor; auto|].
      constructor; [now left|].
      rewrite Forall_forall in *. intros z Hz. left.
      destruct (Hall z Hz) as [L|[Heq _]].
      * apply (lt_trans _ (key y)); auto.
      * now rewrite <- Heq.
    + constructor; [apply IH; auto|].
      rewrite Forall_forall in *. intros z Hz.
      apply (Permutation_in _ (insort_Permutation x l)) in Hz.
      destruct Hz as [<-|Hz]; [|auto].
      destruct (lt (key y) (key x)) eqn:E'; [now left|].
      right. split; [apply lt_total; auto | exact Hpy].
Qed.

Lemma fold_insort (l acc : list A) :
  Forall (fun y => posfin (key y)) l ->
  Forall (fun y => posfin (key y)) acc ->
  StronglySorted (fun a b => pos b < pos a) l ->
  (forall x y, In x l -> In y acc -> pos x < pos y) ->
  StronglySorted (before_asc key pos) acc ->
  StronglySorted (before_asc key pos)
    (fold_left (fun acc x => insort key x acc) l acc)
  /\ Permutation (fold_left (fun acc x => insort key x acc) l acc) (l ++ acc).
Proof.
  revert acc. induction l as [|x l IH]; simpl; intros acc Hl Hacc Hdesc Hlt Hs.
  - split; auto.
  - inversion Hl as [|? ? Hx Hl']; subst.
    apply StronglySorted_inv in Hdesc. destruct Hdesc as [Hdesc Hxl].
    rewrite Forall_forall in Hxl.
    destruct (IH (insort key x acc)) as [S P]; auto.
    + eapply Permutation_Forall;
        [symmetry; apply insort_Permutation | constructor; auto].
    + intros a c Ha Hc.
      apply (Permutation_in _ (insort_Permutation x acc)) in Hc.
      destruct Hc as [<-|Hc]; [apply Hxl; auto | apply Hlt; auto].
    + apply insort_sorted; auto.
      apply Forall_forall. intros y Hy. apply Hlt; auto.
    + split; [exact S|]. rewrite P.
      rewrite insort_Permutation. symmetry. apply Permutation_middle.
Qed.

(** [list_sort key true]: a permutation of its argument, in [before_desc]
    order. *)
Lemma list_sort_reverse (l : list A) :
  Forall (fun y => posfin (key y)) l ->
  StronglySorted (fun a b => pos a < pos b) l ->
  StronglySorted (before_desc key pos) (list_sort key true l)
  /\ Permutation (list_sort key true l) l.
Proof.
  intros Hfin Hpos. unfold list_sort, sort_ascending.
  destruct (fold_insort (rev l) []) as [S P]; auto.
  - apply Forall_rev; exact Hfin.
  - apply (StronglySorted_rev _ _ Hpos).
  - intros x y _ [].
  - constructor.
  - split.
    + apply (StronglySorted_rev _ _ S).
    + rewrite <- Permutation_rev. rewrite P, app_nil_r.
      symmetry. apply Permutation_rev.
Qed.

Lemma before_desc_ge (a b : A) :
  posfin (key a) -> posfin (key b) ->
  before_desc key pos a b -> ge (key a) (key b) = true.
Proof.
  intros Ha Hb [L|[E _]].
  - apply not_lt_ge; auto. now apply lt_asym.
  - apply not_lt_ge; auto. rewrite E. apply lt_irrefl.
Qed.

Lemma before_desc_stable (a b : A) :
  before_desc key pos a b -> eq (key a) (key b) = true -> pos a < pos b.
Proof.
  intros [L|[_ P]] E; [|exact P].
  apply lt_not_eq in L. destruct L; congruence.
Qed.

End SortFacts.

(** ** What the scans read *)

Lemma ascending_prefix (visited rest : list Z) (x : Z) :
  StronglySorted Z.lt (visited ++ x :: rest) ->
  forall y, In y visited -> y < x.
Proof.
  induction visited as [|z visited IH]; simpl; intros Hs y Hy; [tauto|].
  apply StronglySorted_inv in Hs. destruct Hs as [Hs Hall].
  destruct Hy as [<-|Hy]; [|now apply IH].
  rewrite Forall_forall in Hall. apply Hall. apply in_or_app. right. now left.
Qed.

Lemma window_fields (data : list byte) (base n : Z) :
  0 <= base -> window data base n = Return (fields data base n).
Proof.
  intros Hb. unfold window, fields. apply comprehension_map.
  intros i Hi. apply In_py_range in Hi; [|lia].
  apply read_f32_field. lia.
Qed.

Lemma window_length (data : list byte) (base n : Z) (values : list (option float)) :
  window data base n = Return values -> len values = Z.max 0 n.
Proof.
  intros H. apply comprehension_Return in H. apply Forall2_length in H.
  rewrite <- py_range_length. unfold len. now rewrite H.
Qed.

Lemma fields_present (data : list byte) (base n : Z) :
  0 <= base -> base + n * 4 <= len data ->
  exists xs, fields data base n = map Some xs.
Proof.
  intros Hb Hn. unfold fields.
  assert (Hall : forall j, In j (py_range 0 n 1) -> 0 <= j < n).
  { intros j Hj. apply In_py_range in Hj; lia. }
  revert Hall. generalize (py_range 0 n 1) as js.
  induction js as [|j js IH]; intros Hall.
  - now exists [].
  - destruct IH as [xs Hxs]; [intros k Hk; apply Hall; now right|].
    assert (0 <= j < n) by (apply Hall; now left).
    cbn [map]. rewrite Hxs. unfold field.
    destruct (Z.ltb_spec (len data) (base + j * 4 + 4)); [lia|].
    eexists (_ :: xs). reflexivity.
Qed.

Lemma comprehension_require_Some (xs : list float) :
  comprehension require (map Some xs) = Return xs.
Proof.
  induction xs as [|x xs IH]; simpl; auto. now rewrite IH.
Qed.

(** ** Single-offset scans *)

Lemma search_range_matches (lo hi : float) (data : list byte) :
  AnalyzePmTable.search_range lo hi data =
  Return (flat_map (matches lo hi data) (scanned data)).
Proof.
  unfold AnalyzePmTable.search_range.
  rewrite (for_each_append _ (matches lo hi data)); [reflexivity|].
  intros i out Hi. apply In_py_range in Hi; [|lia].
  rewrite read_f32_field by lia. unfold bind, hit, matches.
  destruct (field data i) as [v|]; [|now rewrite app_nil_r].
  destruct (truth v && between lo hi v); [reflexivity|].
  now rewrite app_nil_r.
Qed.

Lemma collect_search_range (lo hi : float) (data : list byte) :
  AnalyzeTemps.collect lo hi data = AnalyzePmTable.search_range lo hi data.
Proof. reflexivity. Qed.

Lemma In_matches (lo hi : float) (data : list byte) (i j : Z) (v : float) :
  In (j, v) (matches lo hi data i) <->
  j = i /\ field data i = Some v /\ truth v = true /\ between lo hi v = true.
Proof.
  unfold matches. destruct (field data i) as [x|]; simpl.
  - destruct (truth x) eqn:T; destruct (between lo hi x) eqn:B; simpl;
      split; try tauto.
    + intros [E|[]]. inversion E; subst. auto.
    + intros [-> [E _]]. inversion E; subst. now left.
    + intros [_ [E [_ F]]]. inversion E; subst. congruence.
    + intros [_ [E [F _]]]. inversion E; subst. congruence.
    + intros [_ [E [F _]]]. inversion E; subst. congruence.
  - split; [tauto|]. intros [_ [E _]]. discriminate.
Qed.

Lemma In_scan (lo hi : float) (data : list byte) (i : Z) (v : float) :
  In (i, v) (flat_map (matches lo hi data) (scanned data)) <->
  In i (scanned data) /\ field data i = Some v /\
  truth v = true /\ between lo hi v = true.
Proof.
  rewrite in_flat_map. split.
  - intros [j [Hj Hin]]. apply In_matches in Hin.
    destruct Hin as [-> H]. tauto.
  - intros [Hi H]. exists i. split; [exact Hi|]. apply In_matches. tauto.
Qed.

(** The scan yields its records in ascending offset order. *)
Lemma scan_ascending (lo hi : float) (data : list byte) (offsets : list Z) :
  StronglySorted Z.lt offsets ->
  StronglySorted (fun a b => fst a < fst b)
    (flat_map (matches lo hi data) offsets).
Proof.
  intros Hs. induction Hs as [|i l Hs IH Hall]; simpl; [constructor|].
  apply StronglySorted_app; auto.
  - unfold matches. destruct (field data i) as [v|]; [|constructor].
    destruct (truth v && between lo hi v); repeat constructor.
  - intros [j v] [k w] Hj Hk. apply In_matches in Hj. destruct Hj as [-> _].
    apply in_flat_map in Hk. destruct Hk as [k' [Hk' Hk]].
    apply In_matches in Hk. destruct Hk as [-> _].
    rewrite Forall_forall in Hall. simpl. now apply Hall.
Qed.

Lemma posfin_of_int_40 : posfin (of_int 40).
Proof. exact I. Qed.

Lemma scanned_offsets (data : list byte) (i : Z) :
  In i (scanned data) <-> 0 <= i /\ i mod 4 = 0 /\ i + 4 < len data.
Proof.
  unfold scanned. rewrite In_py_range by lia.
  rewrite Z.sub_0_r. lia.
Qed.

(** A table whose length is a multiple of 4 has its last field left out. *)
Lemma last_field_not_scanned (data : list byte) (lo hi v : float) (out : list (Z * float)) :
  AnalyzePmTable.search_range lo hi data = Return out ->
  ~ In (len data - 4, v) out.
Proof.
  rewrite search_range_matches. intros E. inversion E; subst.
  rewrite In_scan, scanned_offsets. lia.
Qed.

(** [watch_tick] at non-negative offsets: the fields that are present and
    not zero. *)
Lemma watch_tick_fields (data : list byte) (offsets : list Z) :
  Forall (fun o => 0 <= o) offsets ->
  AnalyzeTemps.watch_tick data offsets =
  Return (flat_map (fun o => match field data o with
                             | Some v => if truth v then [(o, v)] else []
                             | None => []
                             end) offsets).
Proof.
  intros Hpos. unfold AnalyzeTemps.watch_tick.
  rewrite (comprehension_map _ (field data)).
  - unfold bind at 1. clear Hpos.
    induction offsets as [|o l IH]; [reflexivity|].
    cbn [map combine filter snd flat_map].
    destruct (field data o) as [v|]; cbn [truthy];
      [destruct (truth v)|];
      cbn [comprehension require snd fst bind app]; rewrite IH; reflexivity.
  - rewrite Forall_forall in Hpos. intros o Ho.
    apply read_f32_field. now apply Hpos.
Qed.

(** * The decoder and the single-offset scans *)

(** C5: [read_f32] returns [None] exactly when [offset + 4 > len(data)];
    at a non-negative in-bounds offset it returns the binary32
    little-endian value of the four bytes at that offset; and a finite
    binary32 datum packed at an offset is read back as that same datum. *)
Theorem read_f32_decodes (data : list byte) (offset : Z) :
  (read_f32 data offset = Return None <-> len data < offset + 4) /\
  (0 <= offset -> offset + 4 <= len data ->
   read_f32 data offset =
   Return (Some (Binary32.widen
                   (Binary32.of_word
                      (Binary32.word_le
                         (byte_at data offset) (byte_at data (offset + 1))
                         (byte_at data (offset + 2))
                         (byte_at data (offset + 3))))))) /\
  (forall pre x post,
      encodable x ->
      data = pre ++ pack x ++ post -> offset = len pre ->
      Binary32.of_word
        (Binary32.word_le
           (byte_at data offset) (byte_at data (offset + 1))
           (byte_at data (offset + 2)) (byte_at data (offset + 3))) = x /\
      read_f32 data offset = Return (Some (Binary32.widen x))).
Proof.
  split; [apply read_f32_None|]. split.
  - intros H0 Hlen. rewrite read_f32_field by lia. unfold field.
    destruct (Z.ltb_spec (len data) (offset + 4)); [lia | reflexivity].
  - intros pre x post Hx Hdata Hoff.
    pose proof (PackFacts.py_slice_middle pre (pack x) post) as Hslice.
    change (len (pack x)) with 4 in Hslice.
    assert (Hlen : len pre + 4 <= len (pre ++ pack x ++ post)).
    { unfold len. rewrite !length_app. change (length (pack x)) with 4%nat.
      lia. }
    pose proof (len_nonneg pre) as Hpre.
    rewrite <- Hdata, <- Hoff in Hslice, Hlen.
    rewrite py_slice_field in Hslice by lia.
    pose proof (PackFacts.word_le_word_bytes (to_word x)
                  (PackFacts.to_word_range x Hx)) as Hw.
    unfold bytes4, pack, word_bytes in Hslice.
    inversion Hslice as [[H0 H1 H2 H3]].
    rewrite read_f32_field by lia. unfold field.
    destruct (Z.ltb_spec (len data) (offset + 4)); [lia|].
    rewrite H0, H1, H2, H3, Hw, PackFacts.of_word_to_word by exact Hx.
    auto.
Qed.

Lemma read_f32_decodes_witness :
  encodable (f32 45 0) /\
  read_f32 four_fields 12 = Return (Some (Binary32.widen (f32 45 0))).
Proof.
  split; [reflexivity|].
  apply (proj2 (proj2 (read_f32_decodes four_fields 12))
           (table [f32 50 0; f32 96 0; f32 10 0]) (f32 45 0) []);
    reflexivity.
Defined.

(** C1: the scan loop does not visit every aligned offset up to
    [len(data) - 4]: on the 16-byte table of [50.0, 96.0, 10.0, 45.0] the
    field at offset 12 holds 45.0, inside (30, 95), [dump_all] prints it,
    and neither [search_temps] nor [search_tctl] reports it. *)
Theorem search_temps_skips_last_field :
  len four_fields = 16 /\
  read_f32 four_fields 12 = Return (Some (of_int 45)) /\
  between (of_int 30) (of_int 95) (of_int 45) = true /\
  AnalyzePmTable.dump_all four_fields =
    Return [(0, of_int 50); (4, of_int 96); (8, of_int 10); (12, of_int 45)] /\
  py_range 0 (len four_fields - 4) 4 = [0; 4; 8] /\
  AnalyzePmTable.search_temps four_fields = Return [(0, of_int 50)] /\
  AnalyzeTemps.search_tctl four_fields = Return [(0, of_int 50)].
Proof. repeat split; vm_compute; reflexivity. Qed.

(** C4: a visited offset is reported exactly when its value [v] satisfies
    [lo < v < hi], both comparisons strict, for every range whose lower
    bound is not negative (as all ranges of the scripts are); a reported
    value never equals either bound. *)
Theorem search_range_strict (lo hi : float) (data : list byte)
  (Hlo : lt lo zero = false) :
  exists out,
    AnalyzePmTable.search_range lo hi data = Return out /\
    (forall i v,
        In (i, v) out <->
        In i (py_range 0 (len data - 4) 4) /\
        read_f32 data i = Return (Some v) /\
        lt lo v = true /\ lt v hi = true) /\
    (forall i v, In (i, v) out -> eq v lo = false /\ eq v hi = false).
Proof.
  exists (flat_map (matches lo hi data) (scanned data)).
  split; [apply search_range_matches|].
  assert (Hiff : forall i v,
             In (i, v) (flat_map (matches lo hi data) (scanned data)) <->
             In i (py_range 0 (len data - 4) 4) /\
             read_f32 data i = Return (Some v) /\
             lt lo v = true /\ lt v hi = true).
  { intros i v. rewrite In_scan. fold (scanned data). split.
    - intros [Hi [Hf [_ Hb]]]. apply andb_true_iff in Hb.
      pose proof (proj1 (scanned_offsets data i) Hi) as [Hpos _].
      rewrite read_f32_field by lia. rewrite Hf. tauto.
    - intros [Hi [Hr [Hl Hh]]].
      pose proof (proj1 (scanned_offsets data i) Hi) as [Hpos _].
      rewrite read_f32_field in Hr by lia. inversion Hr as [Hf].
      split; [exact Hi|]. split; [reflexivity|]. split.
      + destruct (truth v) eqn:T; [reflexivity|].
        apply truth_false_zero in T. destruct T as [s ->].
        rewrite (zero_not_above lo s Hlo) in Hl. discriminate.
      + unfold between. now rewrite Hl, Hh. }
  split; [exact Hiff|].
  intros i v Hin. apply Hiff in Hin. destruct Hin as [_ [_ [Hl Hh]]].
  split; [apply (lt_not_eq lo v Hl) | apply (lt_not_eq v hi Hh)].
Qed.

Lemma search_range_strict_witness :
  lt (of_int 30) zero = false /\
  exists out,
    AnalyzePmTable.search_temps boundary_fields = Return out /\
    (forall i v,
        In (i, v) out <->
        In i (py_range 0 (len boundary_fields - 4) 4) /\
        read_f32 boundary_fields i = Return (Some v) /\
        lt (of_int 30) v = true /\ lt v (of_int 95) = true) /\
    (forall i v,
        In (i, v) out -> eq v (of_int 30) = false /\ eq v (of_int 95) = false).
Proof.
  split; [reflexivity|].
  apply (search_range_strict (of_int 30) (of_int 95) boundary_fields).
  reflexivity.
Defined.

(** The field holding exactly 95.0 is visited and not reported. *)
Example boundary_value_excluded :
  read_f32 boundary_fields 0 = Return (Some (of_int 95)) /\
  In 0 (py_range 0 (len boundary_fields - 4) 4) /\
  AnalyzePmTable.search_temps boundary_fields = Return [(4, of_int 50)].
Proof. repeat split; vm_compute; auto. Qed.

(** C6: [search_tctl] returns the candidates of its scan, which come in
    ascending offset order, rearranged so that values descend and equal
    values stay in ascending offset order. *)
Theorem search_tctl_sorted (data : list byte) :
  exists candidates ranked,
    AnalyzeTemps.collect (of_int 40) (of_int 95) data = Return candidates /\
    StronglySorted (fun a b => fst a < fst b) candidates /\
    AnalyzeTemps.search_tctl data = Return ranked /\
    Permutation ranked candidates /\
    StronglySorted (fun a b => ge (snd a) (snd b) = true) ranked /\
    StronglySorted
      (fun a b => eq (snd a) (snd b) = true -> fst a < fst b) ranked.
Proof.
  set (candidates := flat_map (matches (of_int 40) (of_int 95) data)
                       (scanned data)).
  assert (Hc : AnalyzeTemps.collect (of_int 40) (of_int 95) data
               = Return candidates)
    by (rewrite collect_search_range; apply search_range_matches).
  assert (Hasc : StronglySorted (fun a b => fst a < fst b) candidates)
    by (apply scan_ascending, py_range_ascending; lia).
  assert (Hfin : Forall (fun c => posfin (snd c)) candidates).
  { apply Forall_forall. intros [i v] Hin. apply In_scan in Hin.
    destruct Hin as [_ [_ [_ Hb]]].
    exact (between_posfin _ _ _ posfin_of_int_40 Hb). }
  destruct (list_sort_reverse snd fst candidates Hfin Hasc) as [Hs Hp].
  exists candidates, (list_sort snd true candidates).
  split; [exact Hc|]. split; [exact Hasc|].
  split; [unfold AnalyzeTemps.search_tctl; now rewrite Hc|].
  split; [exact Hp|].
  assert (Hfin' : forall c, In c (list_sort snd true candidates) ->
                            posfin (snd c)).
  { intros c Hin. rewrite Forall_forall in Hfin. apply Hfin.
    now apply (Permutation_in _ Hp). }
  split.
  - apply (StronglySorted_weaken (before_desc snd fst)); [|exact Hs].
    intros a c Ha Hc'. apply before_desc_ge; auto.
  - apply (StronglySorted_weaken (before_desc snd fst)); [|exact Hs].
    intros a c _ _. apply before_desc_stable.
Qed.

(** A table with two ties: 60.0 at offsets 8 and 20, 50.0 at 0 and 12. *)
Example search_tctl_ties :
  AnalyzeTemps.search_tctl
    (table [f32 50 0; f32 96 0; f32 60 0; f32 50 0; f32 45 0; f32 60 0;
            f32 0 0]) =
  Return [(8, of_int 60); (20, of_int 60); (0, of_int 50); (12, of_int 50);
          (16, of_int 45)].
Proof. vm_compute. reflexivity. Qed.

(** C9: [watch_temps] leaves out a configured offset whose field reads
    exactly 0.0, although reading it succeeds: of the offsets 0 and 4 of a
    table holding 70.0 and 0.0 only the first is printed. *)
Theorem watch_tick_drops_zero_reading :
  read_f32 zero_reading 0 = Return (Some (of_int 70)) /\
  read_f32 zero_reading 4 = Return (Some zero) /\
  AnalyzeTemps.watch_tick zero_reading [0; 4] = Return [(0, of_int 70)] /\
  AnalyzeTemps.watch_temps [zero_reading; zero_reading] [0; 4] =
    Return [[(0, of_int 70)]; [(0, of_int 70)]].
Proof. repeat split; vm_compute; reflexivity. Qed.

(** * The array scans *)

Lemma bases_in_bounds (data : list byte) (n base : Z) :
  In base (bases data n) ->
  0 <= base /\ base mod 4 = 0 /\ base + n * 4 < len data.
Proof.
  unfold bases. rewrite In_py_range by lia. rewrite Z.sub_0_r. lia.
Qed.

Lemma bases_ascending (data : list byte) (n : Z) :
  StronglySorted Z.lt (bases data n).
Proof. apply py_range_ascending. lia. Qed.

Lemma window_present (data : list byte) (n base : Z) :
  In base (bases data n) ->
  exists xs, window data base n = Return (map Some xs)
             /\ fields data base n = map Some xs.
Proof.
  intros Hb. apply bases_in_bounds in Hb. destruct Hb as [H0 [_ Hn]].
  destruct (fields_present data base n) as [xs Hxs]; [lia | lia |].
  exists xs. rewrite window_fields by lia. now rewrite Hxs.
Qed.

Lemma present_Some (xs : list float) : present (map Some xs) = xs.
Proof.
  unfold present. induction xs as [|x xs IH]; simpl; auto. now rewrite IH.
Qed.

Lemma scan_core_temps_accepted (data : list byte) (n : Z)
  (cs : list AnalyzeTemps.candidate) :
  AnalyzeTemps.scan_core_temps data n = Return cs ->
  Forall (accepted_temps data n) cs /\
  StronglySorted (fun a b => AnalyzeTemps.base a < AnalyzeTemps.base b) cs.
Proof.
  intros Hrun. unfold AnalyzeTemps.scan_core_temps in Hrun.
  pose (P := fun (visited : list Z) (s : list AnalyzeTemps.candidate) =>
               Forall (fun c => accepted_temps data n c /\
                                In (AnalyzeTemps.base c) visited) s /\
               StronglySorted
                 (fun a b => AnalyzeTemps.base a < AnalyzeTemps.base b) s).
  loop_invariant Hrun P.
  - intros [Hall Hs]. split; [|exact Hs].
    eapply Forall_impl; [|exact Hall]. intros c [Hc _]. exact Hc.
  - intros visited x rest s s' Hxs [Hall Hs] Hbody.
    assert (Hweak : Forall (fun c => accepted_temps data n c /\
                                     In (AnalyzeTemps.base c) (visited ++ [x]))
                      s).
    { eapply Forall_impl; [|exact Hall]. intros c [Hc Hv]. split; auto.
      apply in_or_app. now left. }
    unbind Hbody as values Hwin.
    destruct (forallb _ values) eqn:Hf;
      [|inversion Hbody; subst; split; auto].
    unbind Hbody as total Hsum. unbind Hbody as avg Havg.
    unbind Hbody as hi Hmax. unbind Hbody as lo Hmin.
    destruct (between _ _ avg && lt _ _) eqn:Hc;
      [|inversion Hbody; subst; split; auto].
    apply andb_true_iff in Hc. destruct Hc as [Hm Hsp].
    inversion Hbody; subst s'. split.
    + apply Forall_app. split; [exact Hweak|].
      constructor; [|constructor]. split.
      * unfold accepted_temps; cbn [AnalyzeTemps.base AnalyzeTemps.values
                                     AnalyzeTemps.avg AnalyzeTemps.spread].
        split; [unfold bases; rewrite Hxs; apply in_or_app; right; now left|].
        split; [exact Hwin|]. split; [exact Hf|].
        split; [now exists total|].
        split; [now exists hi, lo|]. auto.
      * cbn [AnalyzeTemps.base]. apply in_or_app. right. now left.
    + apply StronglySorted_app; auto; [repeat constructor|].
      intros a c Ha [<-|[]]. cbn [AnalyzeTemps.base].
      rewrite Forall_forall in Hall. destruct (Hall a Ha) as [_ Hv].
      apply (ascending_prefix visited rest x); auto.
      rewrite <- Hxs. apply py_range_ascending. lia.
  - split; constructor.
Qed.

Lemma strict_arrays_accepted (lo hi mean_lo mean_hi : float)
  (data : list byte) (n : Z) (out : list AnalyzePmTable.printed_array) :
  AnalyzePmTable.strict_arrays lo hi mean_lo mean_hi data n = Return out ->
  Forall (accepted_strict lo hi mean_lo mean_hi data n) out /\
  StronglySorted
    (fun a b => AnalyzePmTable.pa_base a < AnalyzePmTable.pa_base b) out.
Proof.
  intros Hrun. unfold AnalyzePmTable.strict_arrays in Hrun.
  pose (P := fun (visited : list Z) (s : list AnalyzePmTable.printed_array) =>
               Forall (fun c => accepted_strict lo hi mean_lo mean_hi data n c
                                /\ In (AnalyzePmTable.pa_base c) visited) s /\
               StronglySorted
                 (fun a b => AnalyzePmTable.pa_base a
                             < AnalyzePmTable.pa_base b) s).
  loop_invariant Hrun P.
  - intros [Hall Hs]. split; [|exact Hs].
    eapply Forall_impl; [|exact Hall]. intros c [Hc _]. exact Hc.
  - intros visited x rest s s' Hxs [Hall Hs] Hbody.
    assert (Hweak : Forall (fun c => accepted_strict lo hi mean_lo mean_hi
                                       data n c /\
                                     In (AnalyzePmTable.pa_base c)
                                        (visited ++ [x])) s).
    { eapply Forall_impl; [|exact Hall]. intros c [Hc Hv]. split; auto.
      apply in_or_app. now left. }
    unbind Hbody as values Hwin.
    destruct (forallb _ values) eqn:Hf;
      [|inversion Hbody; subst; split; auto].
    unbind Hbody as total Hsum. unbind Hbody as avg Havg.
    destruct (between _ _ avg) eqn:Hm;
      [|inversion Hbody; subst; split; auto].
    unbind Hbody as shown Hshown. apply comprehension_require in Hshown.
    subst values. inversion Hbody; subst s'. split.
    + apply Forall_app. split; [exact Hweak|].
      constructor; [|constructor]. split.
      * unfold accepted_strict;
          cbn [AnalyzePmTable.pa_base AnalyzePmTable.pa_values
               AnalyzePmTable.pa_avg].
        split; [unfold bases; rewrite Hxs; apply in_or_app; right; now left|].
        split; [exact Hwin|]. split; [exact Hf|].
        exists avg. split; [reflexivity|]. split; [now exists total|auto].
      * cbn [AnalyzePmTable.pa_base]. apply in_or_app. right. now left.
    + apply StronglySorted_app; auto; [repeat constructor|].
      intros a c Ha [<-|[]]. cbn [AnalyzePmTable.pa_base].
      rewrite Forall_forall in Hall. destruct (Hall a Ha) as [_ Hv].
      apply (ascending_prefix visited rest x); auto.
      rewrite <- Hxs. apply py_range_ascending. lia.
  - split; constructor.
Qed.

Lemma tolerant_arrays_tolerant_at (lo hi : float) (data : list byte) (n : Z) :
  AnalyzePmTable.tolerant_arrays lo hi data n =
  Return (flat_map (tolerant_at lo hi data n) (bases data n)).
Proof.
  unfold AnalyzePmTable.tolerant_arrays.
  rewrite (for_each_append _ (tolerant_at lo hi data n)); [reflexivity|].
  intros base out Hb. fold (bases data n) in Hb.
  destruct (window_present data n base Hb) as [xs [Hw Hf]].
  rewrite Hw. unfold bind, tolerant_at. rewrite Hf.
  destruct (n - 2 <=? len (filter (hit lo hi) (map Some xs)));
    [|now rewrite app_nil_r].
  now rewrite comprehension_require_Some, present_Some.
Qed.

(** *** The array loops return for a positive core count *)

Lemma for_each_total {A S : Type} (body : A -> S -> outcome S) (xs : list A) :
  (forall x s, In x xs -> exists s', body x s = Return s') ->
  forall s, exists s', for_each body xs s = Return s'.
Proof.
  induction xs as [|x rest IH]; simpl; intros Hbody s.
  - now exists s.
  - destruct (Hbody x s) as [s1 H1]; [now left|]. rewrite H1. simpl.
    apply IH. intros y t Hy. apply Hbody. now right.
Qed.

Lemma py_sum_Some (xs : list float) :
  exists total, py_sum (map Some xs) = Return total.
Proof.
  unfold py_sum. generalize zero as acc.
  induction xs as [|x xs IH]; simpl; intros acc; [now exists acc|].
  apply IH.
Qed.

Lemma py_max_Some (x : float) (xs : list float) :
  exists m, py_max (map Some (x :: xs)) = Return m.
Proof.
  simpl. generalize x as best.
  induction xs as [|y xs IH]; simpl; intros best; [now exists best|].
  apply IH.
Qed.

Lemma py_min_Some (x : float) (xs : list float) :
  exists m, py_min (map Some (x :: xs)) = Return m.
Proof.
  simpl. generalize x as best.
  induction xs as [|y xs IH]; simpl; intros best; [now exists best|].
  apply IH.
Qed.

Lemma len_map {A B : Type} (f : A -> B) (l : list A) : len (map f l) = len l.
Proof. unfold len. now rewrite length_map. Qed.

Lemma scan_core_temps_returns (data : list byte) (n : Z) :
  0 < n -> exists cs, AnalyzeTemps.scan_core_temps data n = Return cs.
Proof.
  intros Hn. unfold AnalyzeTemps.scan_core_temps. apply for_each_total.
  intros base s Hb. fold (bases data n) in Hb.
  destruct (window_present data n base Hb) as [xs [Hw _]].
  pose proof (window_length _ _ _ _ Hw) as Hlen.
  rewrite Hw. unfold bind at 1.
  destruct (forallb _ (map Some xs)); [|now exists s].
  destruct (py_sum_Some xs) as [total ->]. unfold bind at 1.
  unfold truediv. rewrite Hlen.
  destruct (Z.eqb_spec (Z.max 0 n) 0); [lia|]. unfold bind at 1.
  destruct xs as [|x xs]; [rewrite len_map in Hlen; unfold len in Hlen;
                           simpl in Hlen; lia|].
  destruct (py_max_Some x xs) as [hi ->]. unfold bind at 1.
  destruct (py_min_Some x xs) as [lo ->]. unfold bind at 1.
  destruct (between _ _ _ && lt _ _); eexists; reflexivity.
Qed.

Lemma strict_arrays_returns (lo hi mean_lo mean_hi : float)
  (data : list byte) (n : Z) :
  0 < n ->
  exists out,
    AnalyzePmTable.strict_arrays lo hi mean_lo mean_hi data n = Return out.
Proof.
  intros Hn. unfold AnalyzePmTable.strict_arrays. apply for_each_total.
  intros base s Hb. fold (bases data n) in Hb.
  destruct (window_present data n base Hb) as [xs [Hw _]].
  pose proof (window_length _ _ _ _ Hw) as Hlen.
  rewrite Hw. unfold bind at 1.
  destruct (forallb _ (map Some xs)); [|now exists s].
  destruct (py_sum_Some xs) as [total ->]. unfold bind at 1.
  unfold truediv. rewrite Hlen.
  destruct (Z.eqb_spec (Z.max 0 n) 0); [lia|]. unfold bind at 1.
  destruct (between _ _ _); [|now exists s].
  rewrite comprehension_require_Some. eexists; reflexivity.
Qed.

(** With no core to read, the first window makes the mean divide by zero. *)
Lemma strict_arrays_no_cores (lo hi mean_lo mean_hi : float)
  (data : list byte) (n : Z) (out : list AnalyzePmTable.printed_array) :
  n <= 0 ->
  AnalyzePmTable.strict_arrays lo hi mean_lo mean_hi data n = Return out ->
  bases data n = [].
Proof.
  intros Hn. unfold AnalyzePmTable.strict_arrays. fold (bases data n).
  destruct (bases data n) as [|base rest]; [reflexivity|].
  assert (Hr : py_range 0 n 1 = []).
  { unfold py_range. replace (n - 0 + 1 - 1) with n by ring.
    rewrite Z.div_1_r. now replace (Z.to_nat n) with 0%nat by lia. }
  cbn [for_each]. unfold window. rewrite Hr. discriminate.
Qed.

Lemma search_core_arrays_returns (data : list byte) (n : Z) :
  0 < n ->
  exists t p,
    AnalyzePmTable.temperature_arrays data n = Return t /\
    AnalyzePmTable.power_arrays data n = Return p /\
    AnalyzePmTable.search_core_arrays data n =
    Return {| AnalyzePmTable.temperature := t;
              AnalyzePmTable.power := p;
              AnalyzePmTable.frequency :=
                flat_map (tolerant_at (of_int 400) (of_int 6000) data n)
                         (bases data n) |}.
Proof.
  intros Hn. unfold AnalyzePmTable.search_core_arrays.
  destruct (strict_arrays_returns (of_int 25) (of_int 95) (of_int 30)
              (of_int 70) data n Hn) as [t Ht].
  destruct (strict_arrays_returns (of_dyadic 1 (-1)) (of_int 20) (of_int 2)
              (of_int 15) data n Hn) as [p Hp].
  exists t, p. unfold AnalyzePmTable.temperature_arrays,
    AnalyzePmTable.power_arrays, AnalyzePmTable.frequency_arrays.
  rewrite Ht, Hp, tolerant_arrays_tolerant_at. auto.
Qed.

(** The three lists of a finished [search_core_arrays]. *)
Lemma search_core_arrays_parts (data : list byte) (n : Z)
  (r : AnalyzePmTable.core_arrays) :
  AnalyzePmTable.search_core_arrays data n = Return r ->
  AnalyzePmTable.temperature_arrays data n
  = Return (AnalyzePmTable.temperature r) /\
  AnalyzePmTable.power_arrays data n = Return (AnalyzePmTable.power r) /\
  AnalyzePmTable.frequency r =
  flat_map (tolerant_at (of_int 400) (of_int 6000) data n) (bases data n).
Proof.
  unfold AnalyzePmTable.search_core_arrays. intros H.
  unbind H as t Ht. unbind H as p Hp. unbind H as f Hf.
  inversion H; subst r. cbn. split; [exact Ht|]. split; [exact Hp|].
  unfold AnalyzePmTable.frequency_arrays in Hf.
  rewrite tolerant_arrays_tolerant_at in Hf. now inversion Hf.
Qed.

Lemma In_tolerant (lo hi : float) (data : list byte) (n : Z)
  (pa : AnalyzePmTable.printed_array) :
  In pa (flat_map (tolerant_at lo hi data n) (bases data n)) <->
  In (AnalyzePmTable.pa_base pa) (bases data n) /\
  n - 2 <= len (filter (hit lo hi)
                  (fields data (AnalyzePmTable.pa_base pa) n)) /\
  AnalyzePmTable.pa_avg pa = None /\
  AnalyzePmTable.pa_values pa
  = present (fields data (AnalyzePmTable.pa_base pa) n).
Proof.
  rewrite in_flat_map. unfold tolerant_at. split.
  - intros [base [Hb Hin]].
    destruct (Z.leb_spec (n - 2) (len (filter (hit lo hi) (fields data base n))));
      [|destruct Hin].
    destruct Hin as [<-|[]]. cbn. auto.
  - intros [Hb [Hc [Ha Hv]]]. exists (AnalyzePmTable.pa_base pa).
    split; [exact Hb|].
    destruct (Z.leb_spec (n - 2)
                (len (filter (hit lo hi)
                        (fields data (AnalyzePmTable.pa_base pa) n)))); [|lia].
    left. destruct pa as [pb pavg pv]. cbn in *. now subst.
Qed.

Lemma forallb_hit_not_none (lo hi : float) (values : list (option float)) :
  forallb (hit_not_none lo hi) values = true ->
  Forall (fun v => exists x, v = Some x /\ between lo hi x = true) values.
Proof.
  rewrite forallb_forall, Forall_forall. intros H v Hv.
  specialize (H v Hv). destruct v as [x|]; [|discriminate]. now exists x.
Qed.

Lemma forallb_hit (lo hi : float) (xs : list float) :
  forallb (hit lo hi) (map Some xs) = true ->
  Forall (fun x => truth x = true /\ between lo hi x = true) xs.
Proof.
  rewrite forallb_forall, Forall_forall. intros H x Hx.
  specialize (H (Some x) (in_map Some xs x Hx)). now apply andb_true_iff.
Qed.

Lemma mean_of_nonempty (values : list (option float)) (avg : float) :
  mean_of values avg -> len values <> 0.
Proof.
  intros [total [_ H]]. unfold truediv in H.
  destruct (Z.eqb_spec (len values) 0); [discriminate | assumption].
Qed.

Lemma search_core_temps_scan (data : list byte) (n : Z)
  (cs : list AnalyzeTemps.candidate) :
  AnalyzeTemps.search_core_temps data n = Return cs ->
  exists candidates,
    AnalyzeTemps.scan_core_temps data n = Return candidates /\
    cs = list_sort AnalyzeTemps.avg true candidates.
Proof.
  unfold AnalyzeTemps.search_core_temps. intros H.
  unbind H as candidates Hscan. inversion H. now exists candidates.
Qed.

Lemma posfin_of_int_35 : posfin (of_int 35).
Proof. exact I. Qed.

Lemma search_core_temps_sorted (data : list byte) (n : Z)
  (cs : list AnalyzeTemps.candidate) :
  AnalyzeTemps.search_core_temps data n = Return cs ->
  exists candidates,
    AnalyzeTemps.scan_core_temps data n = Return candidates /\
    Forall (accepted_temps data n) candidates /\
    Permutation cs candidates /\
    StronglySorted (before_desc AnalyzeTemps.avg AnalyzeTemps.base) cs.
Proof.
  intros H. destruct (search_core_temps_scan data n cs H)
    as [candidates [Hscan ->]].
  destruct (scan_core_temps_accepted data n candidates Hscan) as [Hacc Hasc].
  assert (Hfin : Forall (fun c => posfin (AnalyzeTemps.avg c)) candidates).
  { eapply Forall_impl; [|exact Hacc].
    intros c (_ & _ & _ & _ & _ & Hm & _).
    exact (between_posfin _ _ _ posfin_of_int_35 Hm). }
  destruct (list_sort_reverse AnalyzeTemps.avg AnalyzeTemps.base candidates
              Hfin Hasc) as [Hs Hp].
  exists candidates. auto.
Qed.

(** C2, as the code has it: [search_core_temps] keeps a window only if every
    value is inside (25, 100), its mean inside (35, 85) and its spread below
    30; the temperature and power loops of [search_core_arrays] keep a
    window only if every value is inside the per-core range and the mean
    inside the mean range, and apply no bound to the spread. *)
Theorem strict_arrays_filtered (data : list byte) (n : Z) :
  (forall cs c,
      AnalyzeTemps.search_core_temps data n = Return cs -> In c cs ->
      Forall (fun v => exists x, v = Some x /\
                                 between (of_int 25) (of_int 100) x = true)
             (AnalyzeTemps.values c) /\
      mean_of (AnalyzeTemps.values c) (AnalyzeTemps.avg c) /\
      between (of_int 35) (of_int 85) (AnalyzeTemps.avg c) = true /\
      spread_of (AnalyzeTemps.values c) (AnalyzeTemps.spread c) /\
      lt (AnalyzeTemps.spread c) (of_int 30) = true) /\
  (forall r pa,
      AnalyzePmTable.search_core_arrays data n = Return r ->
      In pa (AnalyzePmTable.temperature r) ->
      Forall (fun x => between (of_int 25) (of_int 95) x = true)
             (AnalyzePmTable.pa_values pa) /\
      exists a, AnalyzePmTable.pa_avg pa = Some a /\
                mean_of (map Some (AnalyzePmTable.pa_values pa)) a /\
                between (of_int 30) (of_int 70) a = true) /\
  (forall r pa,
      AnalyzePmTable.search_core_arrays data n = Return r ->
      In pa (AnalyzePmTable.power r) ->
      Forall (fun x => between (of_dyadic 1 (-1)) (of_int 20) x = true)
             (AnalyzePmTable.pa_values pa) /\
      exists a, AnalyzePmTable.pa_avg pa = Some a /\
                mean_of (map Some (AnalyzePmTable.pa_values pa)) a /\
                between (of_int 2) (of_int 15) a = true).
Proof.
  split; [|split].
  - intros cs c Hrun Hin.
    destruct (search_core_temps_sorted data n cs Hrun)
      as [candidates [_ [Hacc [Hp _]]]].
    rewrite Forall_forall in Hacc.
    destruct (Hacc c (Permutation_in _ Hp Hin))
      as (_ & _ & Hf & Hm & Hs & Hmr & Hsr).
    split; [now apply forallb_hit_not_none | auto].
  - intros r pa Hrun Hin.
    apply search_core_arrays_parts in Hrun. destruct Hrun as [Ht _].
    apply strict_arrays_accepted in Ht. destruct Ht as [Hacc _].
    rewrite Forall_forall in Hacc.
    destruct (Hacc pa Hin) as (_ & _ & Hf & a & Ha & Hm & Hmr).
    split; [|now exists a].
    eapply Forall_impl; [|exact (forallb_hit _ _ _ Hf)]. now intros x [_ ?].
  - intros r pa Hrun Hin.
    apply search_core_arrays_parts in Hrun. destruct Hrun as [_ [Hp _]].
    apply strict_arrays_accepted in Hp. destruct Hp as [Hacc _].
    rewrite Forall_forall in Hacc.
    destruct (Hacc pa Hin) as (_ & _ & Hf & a & Ha & Hm & Hmr).
    split; [|now exists a].
    eapply Forall_impl; [|exact (forallb_hit _ _ _ Hf)]. now intros x [_ ?].
Qed.

Lemma strict_arrays_filtered_witness :
  AnalyzeTemps.search_core_temps steady_cores 2 =
  Return [{| AnalyzeTemps.base := 0;
             AnalyzeTemps.values := [Some (of_int 50); Some (of_int 52)];
             AnalyzeTemps.avg := of_int 51;
             AnalyzeTemps.spread := of_int 2 |}] /\
  between (of_int 35) (of_int 85) (of_int 51) = true /\
  lt (of_int 2) (of_int 30) = true.
Proof.
  split; [vm_compute; reflexivity|].
  destruct (proj1 (strict_arrays_filtered steady_cores 2)
              [{| AnalyzeTemps.base := 0;
                  AnalyzeTemps.values := [Some (of_int 50); Some (of_int 52)];
                  AnalyzeTemps.avg := of_int 51;
                  AnalyzeTemps.spread := of_int 2 |}]
              {| AnalyzeTemps.base := 0;
                 AnalyzeTemps.values := [Some (of_int 50); Some (of_int 52)];
                 AnalyzeTemps.avg := of_int 51;
                 AnalyzeTemps.spread := of_int 2 |})
    as (_ & _ & Hm & _ & Hs).
  - vm_compute; reflexivity.
  - now left.
  - split; assumption.
Defined.

(** The temperature loop of [search_core_arrays] prints the window of 26.0
    and 90.0, whose spread of 64.0 is not below 30; [search_core_temps]
    rejects it. *)
Lemma strict_spread_unbounded :
  exists r pa,
    AnalyzePmTable.search_core_arrays wide_spread 2 = Return r /\
    In pa (AnalyzePmTable.temperature r) /\
    spread_of (map Some (AnalyzePmTable.pa_values pa)) (of_int 64) /\
    lt (of_int 64) (of_int 30) = false /\
    AnalyzeTemps.search_core_temps wide_spread 2 = Return [].
Proof.
  eexists. eexists. split; [vm_compute; reflexivity|].
  split; [now left|]. split.
  - exists (of_int 90), (of_int 26). repeat split; vm_compute; reflexivity.
  - split; vm_compute; reflexivity.
Qed.

(** C3: for a positive core count [search_core_arrays] returns, and its
    frequency loop prints the window at a visited base exactly when at least
    [core_count - 2] of the window's [core_count] values pass
    [v and 400 < v < 6000], whatever the other values are. *)
Theorem frequency_arrays_tolerant (data : list byte) (n : Z) (Hn : 0 < n) :
  exists r,
    AnalyzePmTable.search_core_arrays data n = Return r /\
    (forall pa, In pa (AnalyzePmTable.frequency r) ->
                In (AnalyzePmTable.pa_base pa)
                   (py_range 0 (len data - n * 4) 4)) /\
    forall base,
      In base (py_range 0 (len data - n * 4) 4) ->
      exists values,
        window data base n = Return values /\ len values = n /\
        ((exists pa, In pa (AnalyzePmTable.frequency r) /\
                     AnalyzePmTable.pa_base pa = base /\
                     map Some (AnalyzePmTable.pa_values pa) = values) <->
         n - 2 <= len (filter (hit (of_int 400) (of_int 6000)) values)).
Proof.
  destruct (search_core_arrays_returns data n Hn) as [t [p [_ [_ Hr]]]].
  eexists. split; [exact Hr|]. cbn [AnalyzePmTable.frequency]. split.
  - intros pa Hin. apply In_tolerant in Hin. apply Hin.
  - intros base Hb. fold (bases data n) in Hb.
    destruct (window_present data n base Hb) as [xs [Hw Hf]].
    exists (map Some xs). split; [exact Hw|].
    split; [rewrite (window_length _ _ _ _ Hw); lia|]. split.
    + intros [pa [Hin [<- _]]]. apply In_tolerant in Hin.
      rewrite Hf in Hin. apply Hin.
    + intros Hc.
      exists {| AnalyzePmTable.pa_base := base;
                AnalyzePmTable.pa_avg := None;
                AnalyzePmTable.pa_values := xs |}.
      split; [|split; reflexivity].
      apply In_tolerant. cbn. rewrite Hf, present_Some. auto.
Qed.

Lemma frequency_arrays_tolerant_witness :
  0 < 8 /\
  exists r,
    AnalyzePmTable.search_core_arrays eight_cores 8 = Return r /\
    (forall pa, In pa (AnalyzePmTable.frequency r) ->
                In (AnalyzePmTable.pa_base pa)
                   (py_range 0 (len eight_cores - 8 * 4) 4)) /\
    forall base,
      In base (py_range 0 (len eight_cores - 8 * 4) 4) ->
      exists values,
        window eight_cores base 8 = Return values /\ len values = 8 /\
        ((exists pa, In pa (AnalyzePmTable.frequency r) /\
                     AnalyzePmTable.pa_base pa = base /\
                     map Some (AnalyzePmTable.pa_values pa) = values) <->
         8 - 2 <= len (filter (hit (of_int 400) (of_int 6000)) values)).
Proof.
  split; [lia|]. apply (frequency_arrays_tolerant eight_cores 8). lia.
Defined.

(** Six of eight values in range: printed.  Five of eight: not printed. *)
Example eight_cores_printed :
  exists r,
    AnalyzePmTable.search_core_arrays eight_cores 8 = Return r /\
    AnalyzePmTable.frequency r =
    [{| AnalyzePmTable.pa_base := 0;
        AnalyzePmTable.pa_avg := None;
        AnalyzePmTable.pa_values :=
          [of_int 3000; of_int 3100; of_int 2900; of_int 3000; of_int 3200;
           of_int 3000; zero; zero] |}].
Proof. eexists. split; vm_compute; reflexivity. Qed.

Example five_valid_not_printed :
  exists r,
    AnalyzePmTable.search_core_arrays five_valid 8 = Return r /\
    AnalyzePmTable.frequency r = [].
Proof. eexists. split; vm_compute; reflexivity. Qed.

(** C7, as the code has it: [search_core_temps] returns (for a positive
    core count) the candidates of its scan sorted by mean, greatest first;
    the temperature and power loops of [search_core_arrays] print their
    arrays in ascending base-offset order. *)
Theorem core_arrays_order (data : list byte) (n : Z) :
  (0 < n -> exists cs, AnalyzeTemps.search_core_temps data n = Return cs) /\
  (forall cs,
      AnalyzeTemps.search_core_temps data n = Return cs ->
      exists candidates,
        AnalyzeTemps.scan_core_temps data n = Return candidates /\
        Permutation cs candidates /\
        StronglySorted
          (fun a b => ge (AnalyzeTemps.avg a) (AnalyzeTemps.avg b) = true) cs)
  /\
  (forall r,
      AnalyzePmTable.search_core_arrays data n = Return r ->
      StronglySorted
        (fun a b => AnalyzePmTable.pa_base a < AnalyzePmTable.pa_base b)
        (AnalyzePmTable.temperature r) /\
      StronglySorted
        (fun a b => AnalyzePmTable.pa_base a < AnalyzePmTable.pa_base b)
        (AnalyzePmTable.power r)).
Proof.
  split; [|split].
  - intros Hn. destruct (scan_core_temps_returns data n Hn) as [cs Hcs].
    unfold AnalyzeTemps.search_core_temps. rewrite Hcs. eexists. reflexivity.
  - intros cs Hrun.
    destruct (search_core_temps_sorted data n cs Hrun)
      as [candidates [Hscan [Hacc [Hp Hs]]]].
    exists candidates. split; [exact Hscan|]. split; [exact Hp|].
    apply (StronglySorted_weaken
             (before_desc AnalyzeTemps.avg AnalyzeTemps.base)); [|exact Hs].
    assert (Hfin : forall c, In c cs -> posfin (AnalyzeTemps.avg c)).
    { intros c Hin. rewrite Forall_forall in Hacc.
      destruct (Hacc c (Permutation_in _ Hp Hin))
        as (_ & _ & _ & _ & _ & Hm & _).
      exact (between_posfin _ _ _ posfin_of_int_35 Hm). }
    intros a c Ha Hc. apply before_desc_ge; auto.
  - intros r Hrun. apply search_core_arrays_parts in Hrun.
    destruct Hrun as [Ht [Hp _]].
    apply strict_arrays_accepted in Ht. apply strict_arrays_accepted in Hp.
    split; [apply Ht | apply Hp].
Qed.

Lemma core_arrays_order_witness :
  0 < 2 /\
  exists cs, AnalyzeTemps.search_core_temps rising_means 2 = Return cs.
Proof.
  split; [lia|]. apply (proj1 (core_arrays_order rising_means 2)). lia.
Defined.

(** [search_core_arrays] prints the window of mean 45.0 at offset 0 before
    the window of mean 55.0 at offset 4; [search_core_temps] returns the
    same two windows in the opposite order. *)
Lemma temperature_arrays_in_offset_order :
  exists r a c,
    AnalyzePmTable.search_core_arrays rising_means 2 = Return r /\
    AnalyzePmTable.temperature r = [a; c] /\
    AnalyzePmTable.pa_avg a = Some (of_int 45) /\
    AnalyzePmTable.pa_avg c = Some (of_int 55) /\
    lt (of_int 45) (of_int 55) = true /\
    ge (of_int 45) (of_int 55) = false /\
    exists a' c',
      AnalyzeTemps.search_core_temps rising_means 2 = Return [c'; a'] /\
      AnalyzeTemps.avg c' = of_int 55 /\ AnalyzeTemps.avg a' = of_int 45.
Proof.
  do 3 eexists. split; [vm_compute; reflexivity|].
  split; [reflexivity|].
  repeat split; try (vm_compute; reflexivity).
  do 2 eexists. split; [vm_compute; reflexivity|]. split; reflexivity.
Qed.

(** C8, as the code has it: every array any scan produces has exactly
    [core_count] values; in the strict scans every value passes the per-core
    test; in the frequency scan at least [core_count - 2] values pass it and
    the others need not. *)
Theorem array_candidate_shape (data : list byte) (n : Z) :
  (forall cs c,
      AnalyzeTemps.search_core_temps data n = Return cs -> In c cs ->
      len (AnalyzeTemps.values c) = n /\
      Forall (fun v => hit_not_none (of_int 25) (of_int 100) v = true)
             (AnalyzeTemps.values c)) /\
  (forall r pa,
      AnalyzePmTable.search_core_arrays data n = Return r ->
      (In pa (AnalyzePmTable.temperature r) ->
       len (AnalyzePmTable.pa_values pa) = n /\
       Forall (fun x => hit (of_int 25) (of_int 95) (Some x) = true)
              (AnalyzePmTable.pa_values pa)) /\
      (In pa (AnalyzePmTable.power r) ->
       len (AnalyzePmTable.pa_values pa) = n /\
       Forall (fun x => hit (of_dyadic 1 (-1)) (of_int 20) (Some x) = true)
              (AnalyzePmTable.pa_values pa)) /\
      (In pa (AnalyzePmTable.frequency r) ->
       len (AnalyzePmTable.pa_values pa) = n /\
       n - 2 <=
       len (filter (fun x => hit (of_int 400) (of_int 6000) (Some x))
              (AnalyzePmTable.pa_values pa)))).
Proof.
  assert (Hstrict : forall lo hi mlo mhi pa,
             accepted_strict lo hi mlo mhi data n pa ->
             len (AnalyzePmTable.pa_values pa) = n /\
             Forall (fun x => hit lo hi (Some x) = true)
                    (AnalyzePmTable.pa_values pa)).
  { intros lo hi mlo mhi pa (_ & Hw & Hf & a & _ & Hm & _).
    apply window_length in Hw. apply mean_of_nonempty in Hm.
    rewrite len_map in Hw, Hm. split; [lia|].
    rewrite forallb_forall in Hf. apply Forall_forall. intros x Hx.
    apply Hf. now apply in_map. }
  split.
  - intros cs c Hrun Hin.
    destruct (search_core_temps_sorted data n cs Hrun)
      as [candidates [_ [Hacc [Hp _]]]].
    rewrite Forall_forall in Hacc.
    destruct (Hacc c (Permutation_in _ Hp Hin)) as (_ & Hw & Hf & Hm & _).
    apply window_length in Hw. apply mean_of_nonempty in Hm.
    split; [lia|]. rewrite forallb_forall in Hf. now apply Forall_forall.
  - intros r pa Hrun.
    destruct (search_core_arrays_parts data n r Hrun) as [Ht [Hp Hf]].
    split; [|split].
    + intros Hin. apply strict_arrays_accepted in Ht. destruct Ht as [Hacc _].
      rewrite Forall_forall in Hacc. exact (Hstrict _ _ _ _ pa (Hacc pa Hin)).
    + intros Hin. apply strict_arrays_accepted in Hp. destruct Hp as [Hacc _].
      rewrite Forall_forall in Hacc. exact (Hstrict _ _ _ _ pa (Hacc pa Hin)).
    + rewrite Hf. intros Hin.
      assert (Hpos : 0 < n).
      { destruct (Z_lt_le_dec 0 n) as [H|H]; [exact H|].
        apply (strict_arrays_no_cores _ _ _ _ _ _ _ H) in Ht.
        apply in_flat_map in Hin. destruct Hin as [base [Hb _]].
        rewrite Ht in Hb. destruct Hb. }
      apply In_tolerant in Hin. destruct Hin as (Hb & Hc & _ & Hv).
      destruct (window_present data n _ Hb) as [xs [Hw Hfs]].
      apply window_length in Hw. rewrite len_map in Hw.
      rewrite Hfs, present_Some in Hv. rewrite Hfs in Hc. rewrite Hv.
      split; [lia|].
      replace (len (filter (fun x => hit (of_int 400) (of_int 6000) (Some x)) xs))
        with (len (filter (hit (of_int 400) (of_int 6000)) (map Some xs)));
        [exact Hc|].
      clear. unfold len. f_equal.
      induction xs as [|x xs IH]; [reflexivity|]. cbn [map filter].
      destruct (hit (of_int 400) (of_int 6000) (Some x)); cbn [length];
        now rewrite IH.
Qed.

Lemma array_candidate_shape_witness :
  exists r pa,
    AnalyzePmTable.search_core_arrays eight_cores 8 = Return r /\
    In pa (AnalyzePmTable.frequency r) /\
    len (AnalyzePmTable.pa_values pa) = 8 /\
    8 - 2 <=
    len (filter (fun x => hit (of_int 400) (of_int 6000) (Some x))
           (AnalyzePmTable.pa_values pa)).
Proof.
  eexists. eexists.
  assert (Hrun : AnalyzePmTable.search_core_arrays eight_cores 8 =
                 Return {| AnalyzePmTable.temperature := [];
                           AnalyzePmTable.power := [];
                           AnalyzePmTable.frequency :=
                             [{| AnalyzePmTable.pa_base := 0;
                                 AnalyzePmTable.pa_avg := None;
                                 AnalyzePmTable.pa_values :=
                                   [of_int 3000; of_int 3100; of_int 2900;
                                    of_int 3000; of_int 3200; of_int 3000;
                                    zero; zero] |}] |})
    by (vm_compute; reflexivity).
  split; [exact Hrun|]. split; [now left|].
  exact (proj2 (proj2 (proj2 (array_candidate_shape eight_cores 8) _ _ Hrun))
           (or_introl eq_refl)).
Defined.

(** The frequency loop prints a window two of whose values, 0.0, fail the
    per-core test. *)
Lemma tolerant_array_with_idle_cores :
  exists r pa,
    AnalyzePmTable.search_core_arrays eight_cores 8 = Return r /\
    In pa (AnalyzePmTable.frequency r) /\
    In zero (AnalyzePmTable.pa_values pa) /\
    hit (of_int 400) (of_int 6000) (Some zero) = false.
Proof.
  eexists. eexists. split; [vm_compute; reflexivity|].
  split; [now left|]. split; [|reflexivity].
  cbn. do 6 right. now left.
Qed.

(** C10: a visited base offset [base] satisfies [base + core_count * 4 <=
    len(data)], so every value of its window is present; and every array a
    scan produces is the window of a visited base offset. *)
Theorem windows_inside_table (data : list byte) (n : Z) :
  (forall base,
      In base (py_range 0 (len data - n * 4) 4) ->
      0 <= base /\ base + n * 4 <= len data /\
      exists xs, window data base n = Return (map Some xs)) /\
  (forall cs c,
      AnalyzeTemps.search_core_temps data n = Return cs -> In c cs ->
      In (AnalyzeTemps.base c) (py_range 0 (len data - n * 4) 4) /\
      window data (AnalyzeTemps.base c) n = Return (AnalyzeTemps.values c) /\
      Forall (fun v => v <> None) (AnalyzeTemps.values c)) /\
  (forall r pa,
      AnalyzePmTable.search_core_arrays data n = Return r ->
      In pa (AnalyzePmTable.temperature r ++ AnalyzePmTable.power r
             ++ AnalyzePmTable.frequency r) ->
      In (AnalyzePmTable.pa_base pa) (py_range 0 (len data - n * 4) 4) /\
      window data (AnalyzePmTable.pa_base pa) n
      = Return (map Some (AnalyzePmTable.pa_values pa))).
Proof.
  split; [|split].
  - intros base Hb. fold (bases data n) in Hb.
    destruct (window_present data n base Hb) as [xs [Hw _]].
    apply bases_in_bounds in Hb. split; [lia|]. split; [lia|]. now exists xs.
  - intros cs c Hrun Hin.
    destruct (search_core_temps_sorted data n cs Hrun)
      as [candidates [_ [Hacc [Hp _]]]].
    rewrite Forall_forall in Hacc.
    destruct (Hacc c (Permutation_in _ Hp Hin)) as (Hb & Hw & _).
    split; [exact Hb|]. split; [exact Hw|].
    destruct (window_present data n _ Hb) as [xs [Hw' _]].
    rewrite Hw in Hw'. inversion Hw' as [Hv]. apply Forall_forall.
    intros v Hv'. rewrite Hv in Hv'. apply in_map_iff in Hv'. destruct Hv' as [x [<- _]].
    discriminate.
  - intros r pa Hrun Hin.
    destruct (search_core_arrays_parts data n r Hrun) as [Ht [Hp Hf]].
    apply in_app_or in Hin. destruct Hin as [Hin|Hin];
      [|apply in_app_or in Hin; destruct Hin as [Hin|Hin]].
    + apply strict_arrays_accepted in Ht. destruct Ht as [Hacc _].
      rewrite Forall_forall in Hacc. destruct (Hacc pa Hin) as (Hb & Hw & _).
      auto.
    + apply strict_arrays_accepted in Hp. destruct Hp as [Hacc _].
      rewrite Forall_forall in Hacc. destruct (Hacc pa Hin) as (Hb & Hw & _).
      auto.
    + rewrite Hf in Hin. apply In_tolerant in Hin.
      destruct Hin as (Hb & _ & _ & Hv). split; [exact Hb|].
      destruct (window_present data n _ Hb) as [xs [Hw Hfs]].
      rewrite Hfs, present_Some in Hv. now rewrite Hv.
Qed.

Lemma windows_inside_table_witness :
  In 0 (py_range 0 (len eight_cores - 8 * 4) 4) /\
  0 <= 0 /\ 0 + 8 * 4 <= len eight_cores /\
  exists xs, window eight_cores 0 8 = Return (map Some xs).
Proof.
  assert (H : In 0 (py_range 0 (len eight_cores - 8 * 4) 4)) by now left.
  split; [exact H|].
  exact (proj1 (windows_inside_table eight_cores 8) 0 H).
Defined.

(** * Further properties of the two scripts *)

(** ** Ranges, again *)

(** A range with a smaller stop is a prefix of the range with the larger
    one; what follows it is not below the smaller stop. *)
Lemma py_range_prefix (a b step : Z) :
  0 < step -> a <= b ->
  exists tail,
    py_range 0 b step = py_range 0 a step ++ tail /\
    Forall (fun i => a <= i /\ i < b) tail.
Proof.
  intros Hstep Hab. unfold py_range.
  set (na := Z.to_nat ((a - 0 + step - 1) / step)).
  set (nb := Z.to_nat ((b - 0 + step - 1) / step)).
  assert (Hle : (na <= nb)%nat).
  { subst na nb.
    assert ((a - 0 + step - 1) / step <= (b - 0 + step - 1) / step)
      by (apply Z.div_le_mono; lia).
    lia. }
  exists (map (fun k => 0 + step * Z.of_nat k) (seq na (nb - na))).
  split.
  - rewrite <- map_app. f_equal.
    replace nb with (na + (nb - na))%nat at 1 by lia.
    now rewrite seq_app.
  - apply Forall_forall. intros i Hi. apply in_map_iff in Hi.
    destruct Hi as [k [<- Hk]]. apply in_seq in Hk.
    assert (Hin : In (0 + step * Z.of_nat k) (py_range 0 b step)).
    { unfold py_range. apply in_map_iff. exists k. split; [reflexivity|].
      apply in_seq. fold nb. lia. }
    apply In_py_range in Hin; [|lia]. split; [|lia].
    destruct (Z_lt_le_dec (0 + step * Z.of_nat k) a) as [Hlt|]; [|lia].
    exfalso.
    assert (Hin' : In (0 + step * Z.of_nat k) (py_range 0 a step)).
    { apply In_py_range; [lia|]. split; [lia|].
      replace (0 + step * Z.of_nat k - 0) with (Z.of_nat k * step) by ring.
      apply Z.mod_mul. lia. }
    unfold py_range in Hin'. apply in_map_iff in Hin'.
    destruct Hin' as [j [Hj Hjin]]. apply in_seq in Hjin. fold na in Hjin.
    assert (j = k) by nia. lia.
Qed.

Lemma py_range_first (stop step : Z) :
  0 < step -> 0 < stop -> exists rest, py_range 0 stop step = 0 :: rest.
Proof.
  intros Hstep Hstop. unfold py_range.
  assert (H : 1 <= (stop - 0 + step - 1) / step).
  { apply Z.div_le_lower_bound; lia. }
  destruct (Z.to_nat ((stop - 0 + step - 1) / step)) as [|n] eqn:E; [lia|].
  cbn [seq map]. eexists. f_equal. lia.
Qed.

Lemma py_range_empty (stop step : Z) :
  0 < step -> stop <= 0 -> py_range 0 stop step = [].
Proof.
  intros Hstep Hstop. unfold py_range.
  assert (H : (stop - 0 + step - 1) / step <= 0).
  { apply Z.lt_succ_r. apply Z.div_lt_upper_bound; lia. }
  now replace (Z.to_nat ((stop - 0 + step - 1) / step)) with 0%nat by lia.
Qed.

(** ** The table version *)

Lemma word_le_range (b0 b1 b2 b3 : byte) :
  0 <= Binary32.word_le b0 b1 b2 b3 < 4294967296.
Proof.
  unfold Binary32.word_le, Binary32.byte_val.
  pose proof (Byte.to_N_bounded b0). pose proof (Byte.to_N_bounded b1).
  pose proof (Byte.to_N_bounded b2). pose proof (Byte.to_N_bounded b3).
  rewrite !Z.shiftl_mul_pow2 by lia.
  change (2 ^ 8) with 256. change (2 ^ 16) with 65536.
  change (2 ^ 24) with 16777216. lia.
Qed.

(** X1: [read_pm_version] gives 0 when the version file cannot be opened or
    holds fewer than four bytes; otherwise it gives the unsigned 32-bit
    little-endian value of the first four bytes, whatever follows them, so
    its result is always below 2^32 and a version written little-endian is
    read back. *)
Theorem read_pm_version_little_endian :
  AnalyzePmTable.read_pm_version None = 0 /\
  (forall content,
      (length content < 4)%nat ->
      AnalyzePmTable.read_pm_version (Some content) = 0) /\
  (forall file, 0 <= AnalyzePmTable.read_pm_version file < 4294967296) /\
  (forall w rest,
      0 <= w < 4294967296 ->
      AnalyzePmTable.read_pm_version (Some (word_bytes w ++ rest)) = w).
Proof.
  split; [reflexivity|]. split; [|split].
  - intros content Hlen. unfold AnalyzePmTable.read_pm_version.
    destruct content as [|a0 [|a1 [|a2 [|a3 l]]]]; simpl in *;
      try reflexivity; lia.
  - intros [content|]; unfold AnalyzePmTable.read_pm_version; [|lia].
    destruct (firstn 4 content) as [|a0 [|a1 [|a2 [|a3 [|a4 l]]]]]; try lia.
    apply word_le_range.
  - intros w rest Hw. unfold AnalyzePmTable.read_pm_version, word_bytes.
    cbn [app firstn]. now apply PackFacts.word_le_word_bytes.
Qed.

Lemma read_pm_version_little_endian_witness :
  0 <= 5505028 < 4294967296 /\
  AnalyzePmTable.read_pm_version (Some (word_bytes 5505028 ++ [x00])) = 5505028.
Proof.
  split; [lia|].
  apply (proj2 (proj2 (proj2 read_pm_version_little_endian))). lia.
Defined.

(** ** Negative offsets *)

Lemma unpack_wrong_length (bs : list byte) :
  length bs <> 4%nat -> Binary32.unpack bs = Raise StructError.
Proof.
  destruct bs as [|a0 [|a1 [|a2 [|a3 [|a4 l]]]]]; simpl; intros H;
    try reflexivity. now elim H.
Qed.

(** X2: below offset 0 [read_f32] follows Python's slice: at -4 the slice
    is empty and [struct.unpack] raises; below -4 the offset counts from
    the end of the table, and the read raises when it reaches before the
    start.  It never returns [None] there. *)
Theorem read_f32_negative_offset (data : list byte) (offset : Z)
  (Hneg : offset <= -4) :
  (offset < -4 -> 0 <= len data + offset ->
   read_f32 data offset = read_f32 data (len data + offset)) /\
  (offset = -4 \/ len data + offset < 0 ->
   read_f32 data offset = Raise StructError).
Proof.
  pose proof (len_nonneg data) as Hlen.
  assert (Hread : read_f32 data offset =
                  (v <- Binary32.unpack (py_slice data offset (offset + 4)) ;;
                   Return (Some v))).
  { unfold read_f32. destruct (Z.ltb_spec (len data) (offset + 4)); [lia|].
    reflexivity. }
  split.
  - intros Hlt Hin. rewrite Hread.
    unfold read_f32 at 1.
    destruct (Z.ltb_spec (len data) (len data + offset + 4)); [lia|].
    f_equal. f_equal. unfold py_slice, slice_bound.
    destruct (Z.ltb_spec offset 0); [|lia].
    destruct (Z.ltb_spec (offset + 4) 0); [|lia].
    destruct (Z.ltb_spec (len data + offset) 0); [lia|].
    destruct (Z.ltb_spec (len data + offset + 4) 0); [lia|].
    rewrite !Z.max_r by lia. rewrite !Z.min_l by lia.
    f_equal; [lia | f_equal; lia].
  - intros Hcase. rewrite Hread.
    rewrite unpack_wrong_length; [reflexivity|].
    unfold py_slice, slice_bound.
    destruct (Z.ltb_spec offset 0); [|lia].
    rewrite length_firstn.
    destruct (Z.ltb_spec (offset + 4) 0); lia.
Qed.

Lemma read_f32_negative_offset_witness :
  -8 <= -4 /\ -8 < -4 /\ 0 <= len four_fields + -8 /\
  read_f32 four_fields (-8) = read_f32 four_fields (len four_fields + -8) /\
  read_f32 four_fields (-4) = Raise StructError.
Proof.
  split; [lia|]. split; [lia|]. split; [vm_compute; discriminate|]. split.
  - apply (proj1 (read_f32_negative_offset four_fields (-8) ltac:(lia)));
      [lia | vm_compute; discriminate].
  - apply (proj2 (read_f32_negative_offset four_fields (-4) ltac:(lia))).
    now left.
Defined.

(** ** [dump_all] *)

Lemma dump_all_lines_dump_at (data : list byte) :
  AnalyzePmTable.dump_all_lines data =
  Return (flat_map (dump_at data) (py_range 0 (len data) 4)).
Proof.
  unfold AnalyzePmTable.dump_all_lines.
  rewrite (for_each_append _ (dump_at data)); [reflexivity|].
  intros i out Hi. apply In_py_range in Hi; [|lia].
  rewrite read_f32_field by lia. unfold bind, dump_at.
  destruct (field data i); [reflexivity | now rewrite app_nil_r].
Qed.

Lemma dump_all_dump_at (data : list byte) :
  AnalyzePmTable.dump_all data =
  Return (map (fun l => (AnalyzePmTable.dl_offset l,
                         AnalyzePmTable.dl_value l))
              (flat_map (dump_at data) (py_range 0 (len data) 4))).
Proof.
  unfold AnalyzePmTable.dump_all.
  rewrite (for_each_append _
             (fun i => map (fun l => (AnalyzePmTable.dl_offset l,
                                      AnalyzePmTable.dl_value l))
                           (dump_at data i))).
  - cbn [app]. f_equal.
    induction (py_range 0 (len data) 4) as [|i l IH]; [reflexivity|].
    cbn [flat_map]. now rewrite map_app, IH.
  - intros i out Hi. apply In_py_range in Hi; [|lia].
    rewrite read_f32_field by lia. unfold bind, dump_at.
    destruct (field data i); [reflexivity | now rewrite app_nil_r].
Qed.

Lemma field_Some_iff (data : list byte) (i : Z) :
  (exists v, field data i = Some v) <-> i + 4 <= len data.
Proof.
  unfold field. destruct (Z.ltb_spec (len data) (i + 4)); split.
  - intros [v H']. discriminate.
  - lia.
  - lia.
  - intros _. eexists. reflexivity.
Qed.

(** On a range of whole fields every offset gives one line. *)
Lemma dump_at_whole_fields (data : list byte) (offsets : list Z) :
  Forall (fun i => i + 4 <= len data) offsets ->
  map AnalyzePmTable.dl_offset (flat_map (dump_at data) offsets) = offsets.
Proof.
  induction 1 as [|i l Hi _ IH]; [reflexivity|].
  cbn [flat_map]. rewrite map_app, IH. unfold dump_at.
  destruct (proj2 (field_Some_iff data i) Hi) as [v ->]. reflexivity.
Qed.

Lemma dump_at_past_end (data : list byte) (offsets : list Z) :
  Forall (fun i => len data < i + 4) offsets ->
  flat_map (dump_at data) offsets = [].
Proof.
  induction 1 as [|i l Hi _ IH]; [reflexivity|].
  cbn [flat_map]. rewrite IH. unfold dump_at, field.
  destruct (Z.ltb_spec (len data) (i + 4)); [reflexivity | lia].
Qed.

(** X3: [dump_all] returns one line for each whole field of the table, in
    ascending offset order: the offsets are exactly [0, 4, ...] up to the
    last [i] with [i + 4 <= len(data)], so there are [len(data) // 4] lines
    and trailing bytes that do not fill a field are not shown; each line
    carries the field number [i // 4], the value [read_f32] gives there and
    its label. *)
Theorem dump_all_whole_fields (data : list byte) :
  exists lines,
    AnalyzePmTable.dump_all_lines data = Return lines /\
    AnalyzePmTable.dump_all data =
      Return (map (fun l => (AnalyzePmTable.dl_offset l,
                             AnalyzePmTable.dl_value l)) lines) /\
    map AnalyzePmTable.dl_offset lines = py_range 0 (len data - 3) 4 /\
    len lines = len data / 4 /\
    forall l, In l lines ->
      AnalyzePmTable.dl_field l = AnalyzePmTable.dl_offset l / 4 /\
      read_f32 data (AnalyzePmTable.dl_offset l)
      = Return (Some (AnalyzePmTable.dl_value l)) /\
      AnalyzePmTable.dl_label l
      = AnalyzePmTable.dump_label (AnalyzePmTable.dl_value l).
Proof.
  exists (flat_map (dump_at data) (py_range 0 (len data) 4)).
  split; [apply dump_all_lines_dump_at|].
  split; [apply dump_all_dump_at|].
  pose proof (len_nonneg data) as Hlen.
  destruct (py_range_prefix (len data - 3) (len data) 4) as [tail [Hsplit Ht]];
    try lia.
  assert (Hoffsets : map AnalyzePmTable.dl_offset
                       (flat_map (dump_at data) (py_range 0 (len data) 4))
                     = py_range 0 (len data - 3) 4).
  { rewrite Hsplit, flat_map_app, map_app.
    rewrite dump_at_whole_fields, dump_at_past_end; [apply app_nil_r | |].
    - eapply Forall_impl; [|exact Ht]. intros i Hi. cbv beta in Hi. lia.
    - apply Forall_forall. intros i Hi. apply In_py_range in Hi; lia. }
  split; [exact Hoffsets|]. split.
  - unfold len at 1. rewrite <- (length_map AnalyzePmTable.dl_offset), Hoffsets.
    unfold py_range. rewrite length_map, length_seq.
    replace (len data - 3 - 0 + 4 - 1) with (len data) by ring.
    apply Z2Nat.id. apply Z.div_pos; lia.
  - intros l Hl. apply in_flat_map in Hl. destruct Hl as [i [Hi Hl]].
    apply In_py_range in Hi; [|lia]. unfold dump_at in Hl.
    destruct (field data i) as [v|] eqn:Hf; [|destruct Hl].
    destruct Hl as [<-|[]]. cbn.
    rewrite read_f32_field by lia. now rewrite Hf.
Qed.

(** X4: every scan of single offsets reports the lines of [dump_all] whose
    value passes its test, except that the line of a field ending exactly
    at the end of the table is never among them. *)
Theorem search_range_filters_dump (lo hi : float) (data : list byte) :
  exists lines,
    AnalyzePmTable.dump_all data = Return lines /\
    AnalyzePmTable.search_range lo hi data =
    Return (filter (fun iv => (fst iv + 4 <? len data)
                              && (truth (snd iv) && between lo hi (snd iv)))
                   lines).
Proof.
  eexists. split; [apply dump_all_dump_at|].
  rewrite search_range_matches. f_equal.
  pose proof (len_nonneg data) as Hlen.
  destruct (py_range_prefix (len data - 4) (len data) 4) as [tail [Hsplit Ht]];
    try lia.
  rewrite Hsplit, flat_map_app, map_app, filter_app. fold (scanned data).
  assert (Htail : filter (fun iv => (fst iv + 4 <? len data)
                                    && (truth (snd iv)
                                        && between lo hi (snd iv)))
                    (map (fun l => (AnalyzePmTable.dl_offset l,
                                    AnalyzePmTable.dl_value l))
                         (flat_map (dump_at data) tail)) = []).
  { clear Hsplit. induction Ht as [|i l Hi _ IH]; [reflexivity|].
    cbn [flat_map]. rewrite map_app, filter_app, IH, app_nil_r.
    unfold dump_at. destruct (field data i); [|reflexivity].
    cbn. destruct (Z.ltb_spec (i + 4) (len data)); [lia | reflexivity]. }
  rewrite Htail, app_nil_r.
  assert (Hin : Forall (fun i => i + 4 < len data) (scanned data)).
  { apply Forall_forall. intros i Hi. apply scanned_offsets in Hi. lia. }
  induction Hin as [|i l Hi _ IH]; [reflexivity|].
  cbn [flat_map]. rewrite map_app, filter_app, <- IH. f_equal.
  unfold matches, dump_at. destruct (field data i) as [v|]; [|reflexivity].
  cbn. destruct (Z.ltb_spec (i + 4) (len data)); [|lia].
  cbn. destruct (truth v && between lo hi v); reflexivity.
Qed.

(** ** How the ranges relate *)

(** A range wholly below another shares no value with it. *)
Lemma between_disjoint (lo1 hi1 lo2 hi2 v : float) :
  posfin lo1 -> posfin hi1 -> posfin lo2 ->
  lt lo2 hi1 = false ->
  between lo1 hi1 v = true -> between lo2 hi2 v = false.
Proof.
  intros P1 Ph1 P2 Hle H1.
  pose proof (between_posfin _ _ _ P1 H1) as Pv.
  unfold between in *. apply andb_true_iff in H1. destruct H1 as [_ Hv].
  destruct (lt lo2 v) eqn:E; [|reflexivity].
  rewrite (lt_trans lo2 v hi1 P2 Pv Ph1 E Hv) in Hle. discriminate.
Qed.

(** A range inside another passes its values on. *)
Lemma between_widen (lo hi lo' hi' v : float) :
  posfin lo -> posfin hi -> posfin lo' -> posfin hi' ->
  (lo' = lo \/ lt lo' lo = true) -> (hi = hi' \/ lt hi hi' = true) ->
  between lo hi v = true -> between lo' hi' v = true.
Proof.
  intros Pl Ph Pl' Ph' Hlo Hhi H.
  pose proof (between_posfin _ _ _ Pl H) as Pv.
  unfold between in *. apply andb_true_iff in H. destruct H as [H1 H2].
  apply andb_true_iff. split.
  - destruct Hlo as [->|Hlo]; [exact H1|].
    exact (lt_trans lo' lo v Pl' Pl Pv Hlo H1).
  - destruct Hhi as [<-|Hhi]; [exact H2|].
    exact (lt_trans v hi hi' Pv Ph Ph' H2 Hhi).
Qed.

Lemma search_range_In (lo hi : float) (data : list byte)
  (out : list (Z * float)) (i : Z) (v : float) :
  AnalyzePmTable.search_range lo hi data = Return out ->
  (In (i, v) out <->
   In i (scanned data) /\ field data i = Some v /\
   truth v = true /\ between lo hi v = true).
Proof.
  rewrite search_range_matches. intros E. inversion E. apply In_scan.
Qed.

Lemma search_range_incl (lo hi lo' hi' : float) (data : list byte)
  (out out' : list (Z * float)) :
  posfin lo -> posfin hi -> posfin lo' -> posfin hi' ->
  (lo' = lo \/ lt lo' lo = true) -> (hi = hi' \/ lt hi hi' = true) ->
  AnalyzePmTable.search_range lo hi data = Return out ->
  AnalyzePmTable.search_range lo' hi' data = Return out' ->
  incl out out'.
Proof.
  intros Pl Ph Pl' Ph' Hlo Hhi E E' [i v] Hin.
  apply (search_range_In _ _ _ _ _ _ E) in Hin.
  apply (search_range_In _ _ _ _ _ _ E').
  destruct Hin as (Hi & Hf & Ht & Hb). repeat split; auto.
  exact (between_widen lo hi lo' hi' v Pl Ph Pl' Ph' Hlo Hhi Hb).
Qed.

Lemma search_range_disjoint (lo1 hi1 lo2 hi2 : float) (data : list byte)
  (out1 out2 : list (Z * float)) :
  posfin lo1 -> posfin hi1 -> posfin lo2 -> lt lo2 hi1 = false ->
  AnalyzePmTable.search_range lo1 hi1 data = Return out1 ->
  AnalyzePmTable.search_range lo2 hi2 data = Return out2 ->
  forall i v w, In (i, v) out1 -> ~ In (i, w) out2.
Proof.
  intros P1 Ph1 P2 Hle E1 E2 i v w H1 H2.
  apply (search_range_In _ _ _ _ _ _ E1) in H1.
  apply (search_range_In _ _ _ _ _ _ E2) in H2.
  destruct H1 as (_ & Hf1 & _ & Hb1). destruct H2 as (_ & Hf2 & _ & Hb2).
  rewrite Hf1 in Hf2. inversion Hf2; subst w.
  rewrite (between_disjoint lo1 hi1 lo2 hi2 v P1 Ph1 P2 Hle Hb1) in Hb2.
  discriminate.
Qed.

Lemma search_tctl_ranked (data : list byte) :
  exists ranked,
    AnalyzeTemps.search_tctl data = Return ranked /\
    Permutation ranked
      (flat_map (matches (of_int 40) (of_int 95) data) (scanned data)).
Proof.
  set (cands := flat_map (matches (of_int 40) (of_int 95) data)
                  (scanned data)).
  assert (Hc : AnalyzeTemps.collect (of_int 40) (of_int 95) data
               = Return cands)
    by (rewrite collect_search_range; apply search_range_matches).
  assert (Hfin : Forall (fun c => posfin (snd c)) cands).
  { apply Forall_forall. intros [i v] Hin. apply In_scan in Hin.
    destruct Hin as (_ & _ & _ & Hb).
    exact (between_posfin _ _ _ posfin_of_int_40 Hb). }
  assert (Hasc : StronglySorted (fun a b => fst a < fst b) cands)
    by (apply scan_ascending, py_range_ascending; lia).
  exists (list_sort snd true cands). split.
  - unfold AnalyzeTemps.search_tctl. now rewrite Hc.
  - apply (list_sort_reverse snd fst cands Hfin Hasc).
Qed.

(** X5: whatever [search_temps] reports, [search_power] reports too (30..95
    lies inside 5..200); and the candidates of [search_tctl] (40..95) and of
    [search_soc_temp] (30..70) are all among the fields [search_temps]
    reports. *)
Theorem temperature_hits_nested (data : list byte) :
  exists temps pwr tctl soc,
    AnalyzePmTable.search_temps data = Return temps /\
    AnalyzePmTable.search_power data = Return pwr /\
    AnalyzeTemps.search_tctl data = Return tctl /\
    AnalyzeTemps.search_soc_temp data = Return soc /\
    incl temps pwr /\ incl tctl temps /\ incl soc temps.
Proof.
  destruct (search_tctl_ranked data) as (ranked & Hr & Hp).
  exists (flat_map (matches (of_int 30) (of_int 95) data) (scanned data)),
         (flat_map (matches (of_int 5) (of_int 200) data) (scanned data)),
         ranked,
         (flat_map (matches (of_int 30) (of_int 70) data) (scanned data)).
  assert (Et : AnalyzePmTable.search_temps data = Return
                 (flat_map (matches (of_int 30) (of_int 95) data)
                    (scanned data))) by apply search_range_matches.
  assert (Ep : AnalyzePmTable.search_power data = Return
                 (flat_map (matches (of_int 5) (of_int 200) data)
                    (scanned data))) by apply search_range_matches.
  assert (Es : AnalyzeTemps.search_soc_temp data = Return
                 (flat_map (matches (of_int 30) (of_int 70) data)
                    (scanned data)))
    by (unfold AnalyzeTemps.search_soc_temp;
        rewrite collect_search_range; apply search_range_matches).
  repeat (split; [assumption|]). split; [|split].
  - apply (search_range_incl (of_int 30) (of_int 95) (of_int 5) (of_int 200)
             data _ _ I I I I); auto.
  - intros c Hin. apply (Permutation_in _ Hp) in Hin. revert c Hin.
    apply (search_range_incl (of_int 40) (of_int 95) (of_int 30) (of_int 95)
             data _ _ I I I I); auto.
    apply search_range_matches.
  - apply (search_range_incl (of_int 30) (of_int 70) (of_int 30) (of_int 95)
             data _ _ I I I I); auto.
Qed.

(** X6: the voltage, power and frequency ranges are pairwise disjoint: no
    offset is reported by two of [search_voltage], [search_power] and
    [search_freq]. *)
Theorem voltage_power_freq_disjoint (data : list byte) :
  exists volts pwr freq,
    AnalyzePmTable.search_voltage data = Return volts /\
    AnalyzePmTable.search_power data = Return pwr /\
    AnalyzePmTable.search_freq data = Return freq /\
    forall i v w,
      (In (i, v) volts -> ~ In (i, w) pwr) /\
      (In (i, v) volts -> ~ In (i, w) freq) /\
      (In (i, v) pwr -> ~ In (i, w) freq).
Proof.
  do 3 eexists. split; [apply search_range_matches|].
  split; [apply search_range_matches|].
  split; [apply search_range_matches|].
  intros i v w. split; [|split].
  - apply (search_range_disjoint (of_dyadic 1 (-1)) (of_int 2) (of_int 5)
             (of_int 200) data _ _ I I I eq_refl);
      apply search_range_matches.
  - apply (search_range_disjoint (of_dyadic 1 (-1)) (of_int 2) (of_int 1000)
             (of_int 7000) data _ _ I I I eq_refl);
      apply search_range_matches.
  - apply (search_range_disjoint (of_int 5) (of_int 200) (of_int 1000)
             (of_int 7000) data _ _ I I I eq_refl);
      apply search_range_matches.
Qed.

(** X7: a scan of single offsets reports its matches in strictly ascending
    offset order, every offset a multiple of 4 and none twice;
    [search_soc_temp] returns its candidates in that order, unsorted. *)
Theorem scans_report_in_offset_order (lo hi : float) (data : list byte) :
  exists out,
    AnalyzePmTable.search_range lo hi data = Return out /\
    AnalyzeTemps.collect lo hi data = Return out /\
    StronglySorted (fun a b => fst a < fst b) out /\
    NoDup (map fst out) /\
    (forall i v, In (i, v) out -> 0 <= i /\ i mod 4 = 0) /\
    exists soc,
      AnalyzeTemps.search_soc_temp data = Return soc /\
      StronglySorted (fun a b => fst a < fst b) soc.
Proof.
  exists (flat_map (matches lo hi data) (scanned data)).
  assert (Hs : forall l h,
             StronglySorted (fun a b => fst a < fst b)
               (flat_map (matches l h data) (scanned data)))
    by (intros; apply scan_ascending, py_range_ascending; lia).
  split; [apply search_range_matches|].
  split; [rewrite collect_search_range; apply search_range_matches|].
  split; [apply Hs|]. split; [|split].
  - specialize (Hs lo hi).
    induction Hs as [|a l Hs IH Hall]; cbn [map]; constructor; auto.
    rewrite Forall_forall in Hall. intros Hin. apply in_map_iff in Hin.
    destruct Hin as [c [Hc Hin]]. specialize (Hall c Hin). lia.
  - intros i v Hin. apply In_scan in Hin. destruct Hin as [Hi _].
    apply scanned_offsets in Hi. lia.
  - eexists. split; [|apply (Hs (of_int 30) (of_int 70))].
    unfold AnalyzeTemps.search_soc_temp. rewrite collect_search_range.
    apply search_range_matches.
Qed.

(** ** The labels of [dump_all] *)

Lemma not_both (lo1 hi1 lo2 hi2 v : float) :
  posfin lo1 -> posfin hi1 -> posfin lo2 -> lt lo2 hi1 = false ->
  between lo1 hi1 v = true -> between lo2 hi2 v = true -> False.
Proof.
  intros P1 Ph1 P2 Hle H1 H2.
  rewrite (between_disjoint lo1 hi1 lo2 hi2 v P1 Ph1 P2 Hle H1) in H2.
  discriminate.
Qed.

(** X8: the five label ranges of [dump_all] do not overlap, so the order of
    the [elif] chain decides nothing: a value carries a label exactly when
    it lies strictly inside that label's range, and no label exactly when
    it lies in none. *)
Theorem dump_label_by_range (v : float) :
  (AnalyzePmTable.dump_label v = " <- possible PPT limit"%string <->
   between (of_int 150) (of_int 170) v = true) /\
  (AnalyzePmTable.dump_label v = " <- possible EDC limit"%string <->
   between (of_int 200) (of_int 250) v = true) /\
  (AnalyzePmTable.dump_label v = " <- possible TDC limit"%string <->
   between (of_int 90) (of_int 100) v = true) /\
  (AnalyzePmTable.dump_label v = " <- possible FCLK/MCLK"%string <->
   between (of_int 1500) (of_int 3500) v = true) /\
  (AnalyzePmTable.dump_label v = " <- possible core freq"%string <->
   between (of_int 4000) (of_int 6500) v = true) /\
  (AnalyzePmTable.dump_label v = ""%string <->
   between (of_int 150) (of_int 170) v = false /\
   between (of_int 200) (of_int 250) v = false /\
   between (of_int 90) (of_int 100) v = false /\
   between (of_int 1500) (of_int 3500) v = false /\
   between (of_int 4000) (of_int 6500) v = false).
Proof.
  pose proof (not_both (of_int 90) (of_int 100) (of_int 150) (of_int 170) v
                I I I eq_refl) as N31.
  pose proof (not_both (of_int 90) (of_int 100) (of_int 200) (of_int 250) v
                I I I eq_refl) as N32.
  pose proof (not_both (of_int 90) (of_int 100) (of_int 1500) (of_int 3500) v
                I I I eq_refl) as N34.
  pose proof (not_both (of_int 90) (of_int 100) (of_int 4000) (of_int 6500) v
                I I I eq_refl) as N35.
  pose proof (not_both (of_int 150) (of_int 170) (of_int 200) (of_int 250) v
                I I I eq_refl) as N12.
  pose proof (not_both (of_int 150) (of_int 170) (of_int 1500) (of_int 3500) v
                I I I eq_refl) as N14.
  pose proof (not_both (of_int 150) (of_int 170) (of_int 4000) (of_int 6500) v
                I I I eq_refl) as N15.
  pose proof (not_both (of_int 200) (of_int 250) (of_int 1500) (of_int 3500) v
                I I I eq_refl) as N24.
  pose proof (not_both (of_int 200) (of_int 250) (of_int 4000) (of_int 6500) v
                I I I eq_refl) as N25.
  pose proof (not_both (of_int 1500) (of_int 3500) (of_int 4000) (of_int 6500)
                v I I I eq_refl) as N45.
  unfold AnalyzePmTable.dump_label.
  destruct (between (of_int 150) (of_int 170) v);
    destruct (between (of_int 200) (of_int 250) v);
    destruct (between (of_int 90) (of_int 100) v);
    destruct (between (of_int 1500) (of_int 3500) v);
    destruct (between (of_int 4000) (of_int 6500) v);
    try (exfalso; auto; fail);
    repeat split; intros; try reflexivity; try discriminate;
    try (repeat match goal with H : _ /\ _ |- _ => destruct H end;
         discriminate).
Qed.

(** ** More on the array scans *)

(** X9: [search_core_temps] breaks ties by position: candidates with equal
    means come in ascending base-offset order, and no base offset occurs
    twice. *)
Theorem search_core_temps_ties (data : list byte) (n : Z)
  (cs : list AnalyzeTemps.candidate)
  (Hrun : AnalyzeTemps.search_core_temps data n = Return cs) :
  StronglySorted
    (fun a b => eq (AnalyzeTemps.avg a) (AnalyzeTemps.avg b) = true ->
                AnalyzeTemps.base a < AnalyzeTemps.base b) cs /\
  NoDup (map AnalyzeTemps.base cs).
Proof.
  destruct (search_core_temps_sorted data n cs Hrun)
    as (candidates & Hscan & _ & Hp & Hs).
  split.
  - apply (StronglySorted_weaken
             (before_desc AnalyzeTemps.avg AnalyzeTemps.base)); [|exact Hs].
    intros a c _ _. apply before_desc_stable.
  - apply (Permutation_NoDup (l := map AnalyzeTemps.base candidates)).
    + apply Permutation_map. now symmetry.
    + destruct (scan_core_temps_accepted data n candidates Hscan)
        as [_ Hasc].
      clear - Hasc. induction Hasc as [|a l Hs IH Hall]; cbn [map];
        constructor; auto.
      rewrite Forall_forall in Hall. intros Hin. apply in_map_iff in Hin.
      destruct Hin as [c [Hc Hin]]. specialize (Hall c Hin). lia.
Qed.

Lemma search_core_temps_ties_witness :
  AnalyzeTemps.search_core_temps
    (table [f32 50 0; f32 60 0; f32 50 0; f32 60 0; f32 0 0]) 2 =
  Return [{| AnalyzeTemps.base := 0;
             AnalyzeTemps.values := [Some (of_int 50); Some (of_int 60)];
             AnalyzeTemps.avg := of_int 55;
             AnalyzeTemps.spread := of_int 10 |};
          {| AnalyzeTemps.base := 4;
             AnalyzeTemps.values := [Some (of_int 60); Some (of_int 50)];
             AnalyzeTemps.avg := of_int 55;
             AnalyzeTemps.spread := of_int 10 |};
          {| AnalyzeTemps.base := 8;
             AnalyzeTemps.values := [Some (of_int 50); Some (of_int 60)];
             AnalyzeTemps.avg := of_int 55;
             AnalyzeTemps.spread := of_int 10 |}] /\
  NoDup [0; 4; 8].
Proof.
  assert (Hrun : AnalyzeTemps.search_core_temps
                   (table [f32 50 0; f32 60 0; f32 50 0; f32 60 0; f32 0 0])
                   2 =
                 Return [{| AnalyzeTemps.base := 0;
                            AnalyzeTemps.values :=
                              [Some (of_int 50); Some (of_int 60)];
                            AnalyzeTemps.avg := of_int 55;
                            AnalyzeTemps.spread := of_int 10 |};
                         {| AnalyzeTemps.base := 4;
                            AnalyzeTemps.values :=
                              [Some (of_int 60); Some (of_int 50)];
                            AnalyzeTemps.avg := of_int 55;
                            AnalyzeTemps.spread := of_int 10 |};
                         {| AnalyzeTemps.base := 8;
                            AnalyzeTemps.values :=
                              [Some (of_int 50); Some (of_int 60)];
                            AnalyzeTemps.avg := of_int 55;
                            AnalyzeTemps.spread := of_int 10 |}])
    by (vm_compute; reflexivity).
  split; [exact Hrun|].
  exact (proj2 (search_core_temps_ties _ _ _ Hrun)).
Defined.

Lemma window_no_cores (data : list byte) (base n : Z) :
  n <= 0 -> window data base n = Return [].
Proof.
  intros Hn. unfold window.
  now rewrite (py_range_empty n 1) by lia.
Qed.

(** X10: with a core count of zero or less the array searches divide by
    zero at the first window: [search_core_temps] and [search_core_arrays]
    raise [ZeroDivisionError] whenever there is a window to visit, that is
    unless the count is 0 and the table empty, in which case they return
    nothing. *)
Theorem array_search_without_cores (data : list byte) (n : Z) (Hn : n <= 0) :
  (n * 4 < len data ->
   AnalyzeTemps.search_core_temps data n = Raise ZeroDivisionError /\
   AnalyzePmTable.search_core_arrays data n = Raise ZeroDivisionError) /\
  (len data <= n * 4 ->
   AnalyzeTemps.search_core_temps data n = Return [] /\
   AnalyzePmTable.search_core_arrays data n =
   Return {| AnalyzePmTable.temperature := [];
             AnalyzePmTable.power := [];
             AnalyzePmTable.frequency := [] |}).
Proof.
  split.
  - intros Hlen.
    destruct (py_range_first (len data - n * 4) 4) as [rest Hr]; try lia.
    unfold AnalyzeTemps.search_core_temps, AnalyzeTemps.scan_core_temps,
      AnalyzePmTable.search_core_arrays, AnalyzePmTable.temperature_arrays,
      AnalyzePmTable.strict_arrays.
    rewrite Hr. cbn [for_each]. rewrite (window_no_cores data 0 n Hn).
    split; reflexivity.
  - intros Hlen.
    unfold AnalyzeTemps.search_core_temps, AnalyzeTemps.scan_core_temps,
      AnalyzePmTable.search_core_arrays, AnalyzePmTable.temperature_arrays,
      AnalyzePmTable.power_arrays, AnalyzePmTable.frequency_arrays,
      AnalyzePmTable.strict_arrays, AnalyzePmTable.tolerant_arrays.
    rewrite (py_range_empty (len data - n * 4) 4) by lia.
    split; reflexivity.
Qed.

Lemma array_search_without_cores_witness :
  0 <= 0 /\ 0 * 4 < len four_fields /\
  AnalyzeTemps.search_core_temps four_fields 0 = Raise ZeroDivisionError /\
  AnalyzePmTable.search_core_arrays four_fields 0 = Raise ZeroDivisionError.
Proof.
  split; [lia|]. split; [reflexivity|].
  apply (proj1 (array_search_without_cores four_fields 0 ltac:(lia))).
  reflexivity.
Defined.

(** X11: a table no longer than one window gives no array at all: for a
    positive core count with [len(data) <= core_count * 4] every array
    search returns nothing, also when the table is exactly one window. *)
Theorem array_search_short_table (data : list byte) (n : Z)
  (Hn : 0 < n) (Hlen : len data <= n * 4) :
  AnalyzeTemps.search_core_temps data n = Return [] /\
  AnalyzePmTable.search_core_arrays data n =
  Return {| AnalyzePmTable.temperature := [];
            AnalyzePmTable.power := [];
            AnalyzePmTable.frequency := [] |}.
Proof.
  unfold AnalyzeTemps.search_core_temps, AnalyzeTemps.scan_core_temps,
    AnalyzePmTable.search_core_arrays, AnalyzePmTable.temperature_arrays,
    AnalyzePmTable.power_arrays, AnalyzePmTable.frequency_arrays,
    AnalyzePmTable.strict_arrays, AnalyzePmTable.tolerant_arrays.
  rewrite (py_range_empty (len data - n * 4) 4) by lia.
  split; reflexivity.
Qed.

Lemma array_search_short_table_witness :
  0 < 2 /\ len (table [f32 50 0; f32 52 0]) <= 2 * 4 /\
  AnalyzeTemps.search_core_temps (table [f32 50 0; f32 52 0]) 2 = Return [] /\
  AnalyzePmTable.search_core_arrays (table [f32 50 0; f32 52 0]) 2 =
  Return {| AnalyzePmTable.temperature := [];
            AnalyzePmTable.power := [];
            AnalyzePmTable.frequency := [] |}.
Proof.
  split; [lia|]. split; [vm_compute; discriminate|].
  apply array_search_short_table; [lia | vm_compute; discriminate].
Defined.

(** ** [max] and [min] *)

Lemma ge_refl_posfin (x : float) : posfin x -> ge x x = true.
Proof. intros P. apply not_lt_ge; auto. apply lt_irrefl. Qed.

Lemma ge_trans_lt (x y z : float) :
  posfin x -> posfin y -> posfin z ->
  lt x y = true -> ge x z = true -> ge y z = true.
Proof.
  intros Px Py Pz Hxy Hxz. apply not_lt_ge; auto.
  destruct (lt y z) eqn:E; [|reflexivity].
  apply ge_not_lt in Hxz. rewrite (lt_trans x y z Px Py Pz Hxy E) in Hxz.
  discriminate.
Qed.

Lemma le_trans_lt (x y z : float) :
  posfin x -> posfin y -> posfin z ->
  lt y x = true -> ge z x = true -> ge z y = true.
Proof.
  intros Px Py Pz Hyx Hzx. apply not_lt_ge; auto.
  destruct (lt z y) eqn:E; [|reflexivity].
  apply ge_not_lt in Hzx. rewrite (lt_trans z y x Pz Py Px E Hyx) in Hzx.
  discriminate.
Qed.

Lemma ge_trans (x y z : float) :
  posfin x -> posfin y -> posfin z ->
  ge x y = true -> ge y z = true -> ge x z = true.
Proof.
  intros Px Py Pz Hxy Hyz. apply not_lt_ge; auto.
  apply ge_not_lt in Hxy. apply ge_not_lt in Hyz.
  destruct (lt x z) eqn:E; [|reflexivity].
  destruct (lt y x) eqn:E'.
  - rewrite (lt_trans y x z Py Px Pz E' E) in Hyz. discriminate.
  - rewrite (lt_total x y Px Py Hxy E') in E. congruence.
Qed.

(** The loop of [max] from a first item [best]: a member that no member
    exceeds. *)
Lemma max_loop (rest : list float) (best : float) :
  Forall posfin (best :: rest) ->
  exists m,
    for_each (fun item b =>
                v <- require item ;; Return (if gt v b then v else b))
             (map Some rest) best = Return m /\
    In m (best :: rest) /\ ge m best = true /\
    Forall (fun x => ge m x = true) rest.
Proof.
  revert best. induction rest as [|y rest IH]; intros best Hfin.
  - exists best. split; [reflexivity|]. split; [now left|].
    split; [|constructor]. apply ge_refl_posfin. now inversion Hfin.
  - inversion Hfin as [|? ? Pb Hfin']; subst.
    inversion Hfin' as [|? ? Py Pr]; subst.
    cbn [map for_each require bind]. unfold gt.
    change (SFltb best y) with (lt best y).
    destruct (lt best y) eqn:E.
    + destruct (IH y Hfin') as (m & Hm & Hin & Hmy & Hall).
      assert (Pm : posfin m)
        by (rewrite Forall_forall in Hfin'; now apply Hfin').
      exists m. split; [exact Hm|]. split; [now right|]. split.
      * apply (le_trans_lt y best m); auto.
      * constructor; auto.
    + destruct (IH best (Forall_cons _ Pb Pr)) as (m & Hm & Hin & Hmb & Hall).
      assert (Pm : posfin m).
      { destruct Hin as [<-|Hin]; [exact Pb|].
        rewrite Forall_forall in Pr. now apply Pr. }
      exists m. split; [exact Hm|]. split.
      * destruct Hin as [<-|Hin]; [now left | right; now right].
      * split; [exact Hmb|]. constructor; [|exact Hall].
        apply (ge_trans m best y); auto. now apply not_lt_ge.
Qed.

(** The loop of [min]: a member that exceeds no member. *)
Lemma min_loop (rest : list float) (best : float) :
  Forall posfin (best :: rest) ->
  exists m,
    for_each (fun item b =>
                v <- require item ;; Return (if lt v b then v else b))
             (map Some rest) best = Return m /\
    In m (best :: rest) /\ ge best m = true /\
    Forall (fun x => ge x m = true) rest.
Proof.
  revert best. induction rest as [|y rest IH]; intros best Hfin.
  - exists best. split; [reflexivity|]. split; [now left|].
    split; [|constructor]. apply ge_refl_posfin. now inversion Hfin.
  - inversion Hfin as [|? ? Pb Hfin']; subst.
    inversion Hfin' as [|? ? Py Pr]; subst.
    cbn [map for_each require bind].
    destruct (lt y best) eqn:E.
    + destruct (IH y Hfin') as (m & Hm & Hin & Hym & Hall).
      assert (Pm : posfin m)
        by (rewrite Forall_forall in Hfin'; now apply Hfin').
      exists m. split; [exact Hm|]. split; [now right|]. split.
      * apply (ge_trans_lt y best m); auto.
      * constructor; auto.
    + destruct (IH best (Forall_cons _ Pb Pr)) as (m & Hm & Hin & Hbm & Hall).
      assert (Pm : posfin m).
      { destruct Hin as [<-|Hin]; [exact Pb|].
        rewrite Forall_forall in Pr. now apply Pr. }
      exists m. split; [exact Hm|]. split.
      * destruct Hin as [<-|Hin]; [now left | right; now right].
      * split; [exact Hbm|]. constructor; [|exact Hall].
        apply (ge_trans y best m); auto. now apply not_lt_ge.
Qed.

(** X12: the spread of a candidate of [search_core_temps] is the
    difference of two of its own values, and every value of the candidate
    lies between those two. *)
Theorem candidate_spread_extremes (data : list byte) (n : Z)
  (cs : list AnalyzeTemps.candidate) (c : AnalyzeTemps.candidate)
  (Hrun : AnalyzeTemps.search_core_temps data n = Return cs)
  (Hin : In c cs) :
  exists hi lo,
    In (Some hi) (AnalyzeTemps.values c) /\
    In (Some lo) (AnalyzeTemps.values c) /\
    AnalyzeTemps.spread c = sub hi lo /\
    Forall (fun v => exists x, v = Some x /\
                               ge hi x = true /\ ge x lo = true)
           (AnalyzeTemps.values c).
Proof.
  destruct (search_core_temps_sorted data n cs Hrun)
    as (candidates & _ & Hacc & Hp & _).
  rewrite Forall_forall in Hacc.
  destruct (Hacc c (Permutation_in _ Hp Hin))
    as (Hb & Hw & Hf & Hm & (hi & lo & Hmax & Hmin & Hs) & _).
  destruct (window_present data n _ Hb) as [xs [Hw' _]].
  rewrite Hw in Hw'. inversion Hw' as [Hv]. rewrite Hv in *.
  assert (Hfin : Forall posfin xs).
  { apply forallb_hit_not_none in Hf. apply Forall_forall. intros x Hx.
    rewrite Forall_forall in Hf.
    destruct (Hf (Some x) (in_map Some xs x Hx)) as (x' & Hx' & Hbx).
    inversion Hx'; subst x'.
    exact (between_posfin (of_int 25) (of_int 100) x I Hbx). }
  destruct xs as [|x xs].
  { apply mean_of_nonempty in Hm. now elim Hm. }
  cbn [map py_max py_min require bind] in Hmax, Hmin.
  destruct (max_loop xs x Hfin) as (mx & Hmx & Hinx & Hgx & Hallx).
  destruct (min_loop xs x Hfin) as (mn & Hmn & Hinn & Hgn & Halln).
  rewrite Hmx in Hmax. rewrite Hmn in Hmin.
  inversion Hmax; subst mx. inversion Hmin; subst mn.
  exists hi, lo. split; [now apply in_map|]. split; [now apply in_map|].
  split; [exact Hs|].
  apply Forall_forall. intros v Hv'. apply in_map_iff in Hv'.
  destruct Hv' as [y [<- Hy]]. exists y. split; [reflexivity|].
  rewrite Forall_forall in Hallx, Halln.
  destruct Hy as [<-|Hy]; auto.
Qed.

Lemma candidate_spread_extremes_witness :
  exists hi lo,
    In (Some hi) [Some (of_int 50); Some (of_int 52)] /\
    In (Some lo) [Some (of_int 50); Some (of_int 52)] /\
    of_int 2 = sub hi lo /\
    Forall (fun v => exists x, v = Some x /\
                               ge hi x = true /\ ge x lo = true)
           [Some (of_int 50); Some (of_int 52)].
Proof.
  apply (candidate_spread_extremes steady_cores 2
           [{| AnalyzeTemps.base := 0;
               AnalyzeTemps.values := [Some (of_int 50); Some (of_int 52)];
               AnalyzeTemps.avg := of_int 51;
               AnalyzeTemps.spread := of_int 2 |}]
           {| AnalyzeTemps.base := 0;
              AnalyzeTemps.values := [Some (of_int 50); Some (of_int 52)];
              AnalyzeTemps.avg := of_int 51;
              AnalyzeTemps.spread := of_int 2 |}).
  - vm_compute; reflexivity.
  - now left.
Defined.

(** ** The monitor *)

Lemma read_f32_raises_struct (data : list byte) (offset : Z) (e : pyexn) :
  read_f32 data offset = Raise e -> e = StructError.
Proof.
  unfold read_f32. destruct (len data <? offset + 4); [discriminate|].
  unfold Binary32.unpack.
  destruct (py_slice data offset (offset + 4))
    as [|a0 [|a1 [|a2 [|a3 [|a4 l]]]]]; simpl; intros H; inversion H;
    reflexivity.
Qed.

Lemma comprehension_raises {A B : Type} (f : A -> outcome B) (xs : list A)
  (e : pyexn) :
  (forall x e', In x xs -> f x = Raise e' -> e' = e) ->
  (exists x, In x xs /\ f x = Raise e) ->
  comprehension f xs = Raise e.
Proof.
  induction xs as [|x xs IH]; intros Honly [y [Hy Hr]]; [destruct Hy|].
  cbn [comprehension]. destruct (f x) as [b|e'] eqn:E.
  - cbn [bind]. rewrite IH; [reflexivity | |].
    + intros z e'' Hz. apply Honly. now right.
    + destruct Hy as [<-|Hy]; [congruence|]. now exists y.
  - cbn [bind]. f_equal. apply (Honly x); [now left | exact E].
Qed.

Lemma comprehension_length {A B : Type} (f : A -> outcome B) (xs : list A)
  (ys : list B) :
  comprehension f xs = Return ys -> length ys = length xs.
Proof.
  intros H. apply comprehension_Return in H. symmetry.
  exact (Forall2_length H).
Qed.

(** X13: with offsets that are not negative a tick of [watch_temps] never
    raises; its line holds, in the order the offsets were given, exactly
    the offsets that lie inside the table and whose value is not zero, each
    with the value [read_f32] gives there; an offset past the end of the
    table is left out. *)
Theorem watch_tick_line (data : list byte) (offsets : list Z)
  (Hpos : Forall (fun o => 0 <= o) offsets) :
  exists line,
    AnalyzeTemps.watch_tick data offsets = Return line /\
    map fst line =
      filter (fun o => match read_f32 data o with
                       | Return (Some v) => truth v
                       | _ => false
                       end) offsets /\
    (forall o v, In (o, v) line ->
                 read_f32 data o = Return (Some v) /\ o + 4 <= len data) /\
    (forall o, In o offsets -> len data < o + 4 -> ~ In o (map fst line)).
Proof.
  eexists. split; [apply (watch_tick_fields data offsets Hpos)|].
  assert (Hmap : map fst
                   (flat_map (fun o => match field data o with
                                       | Some v =>
                                           if truth v then [(o, v)] else []
                                       | None => []
                                       end) offsets) =
                 filter (fun o => match read_f32 data o with
                                  | Return (Some v) => truth v
                                  | _ => false
                                  end) offsets).
  { induction Hpos as [|o l Ho _ IH]; [reflexivity|].
    cbn [flat_map filter]. rewrite map_app, IH.
    rewrite (read_f32_field data o Ho).
    destruct (field data o) as [v|]; [|reflexivity].
    destruct (truth v); reflexivity. }
  split; [exact Hmap|]. split.
  - intros o v Hin. apply in_flat_map in Hin. destruct Hin as [o' [Ho' Hin]].
    rewrite Forall_forall in Hpos. specialize (Hpos o' Ho').
    destruct (field data o') as [w|] eqn:Hf; [|destruct Hin].
    destruct (truth w); [|destruct Hin]. destruct Hin as [E|[]].
    inversion E; subst o' w. rewrite read_f32_field by lia.
    split; [now rewrite Hf|].
    apply field_Some_iff. now exists v.
  - intros o Ho Hpast. rewrite Hmap. intros Hin. apply filter_In in Hin.
    destruct Hin as [_ Hin]. rewrite (proj2 (read_f32_None data o) Hpast) in Hin.
    discriminate.
Qed.

Lemma watch_tick_line_witness :
  Forall (fun o => 0 <= o) [4; 0; 8; 12] /\
  exists line,
    AnalyzeTemps.watch_tick four_fields [4; 0; 8; 12] = Return line /\
    map fst line =
      filter (fun o => match read_f32 four_fields o with
                       | Return (Some v) => truth v
                       | _ => false
                       end) [4; 0; 8; 12] /\
    (forall o v, In (o, v) line ->
                 read_f32 four_fields o = Return (Some v) /\
                 o + 4 <= len four_fields) /\
    (forall o, In o [4; 0; 8; 12] -> len four_fields < o + 4 ->
               ~ In o (map fst line)).
Proof.
  assert (H : Forall (fun o => 0 <= o) [4; 0; 8; 12])
    by (repeat constructor; lia).
  split; [exact H|]. exact (watch_tick_line four_fields [4; 0; 8; 12] H).
Defined.

Lemma read_f32_minus_4 (data : list byte) :
  read_f32 data (-4) = Raise StructError.
Proof.
  unfold read_f32. pose proof (len_nonneg data).
  destruct (Z.ltb_spec (len data) (-4 + 4)); [lia|].
  rewrite unpack_wrong_length; [reflexivity|].
  unfold py_slice, slice_bound.
  destruct (Z.ltb_spec (-4) 0); [|lia].
  destruct (Z.ltb_spec (-4 + 4) 0); [lia|].
  rewrite length_firstn. lia.
Qed.

(** X14: an offset [read_f32] cannot read makes the whole tick raise
    [struct.error], which [watch_temps] does not catch, so monitoring stops
    at the first snapshot; the offset -4 does so on every table. *)
Theorem watch_unreadable_offset (data : list byte) (offsets : list Z)
  (more : list (list byte)) :
  ((exists o, In o offsets /\ read_f32 data o = Raise StructError) ->
   AnalyzeTemps.watch_tick data offsets = Raise StructError /\
   AnalyzeTemps.watch_temps (data :: more) offsets = Raise StructError) /\
  (In (-4) offsets ->
   AnalyzeTemps.watch_temps (data :: more) offsets = Raise StructError).
Proof.
  assert (Hbad : (exists o, In o offsets /\
                            read_f32 data o = Raise StructError) ->
                 AnalyzeTemps.watch_tick data offsets = Raise StructError /\
                 AnalyzeTemps.watch_temps (data :: more) offsets
                 = Raise StructError).
  { intros Hex.
    assert (Ht : AnalyzeTemps.watch_tick data offsets = Raise StructError).
    { unfold AnalyzeTemps.watch_tick.
      rewrite (comprehension_raises (read_f32 data) offsets StructError);
        [reflexivity | | exact Hex].
      intros o e' _. apply read_f32_raises_struct. }
    split; [exact Ht|]. unfold AnalyzeTemps.watch_temps.
    cbn [comprehension]. now rewrite Ht. }
  split; [exact Hbad|].
  intros Hin. apply Hbad. exists (-4). split; [exact Hin|].
  apply read_f32_minus_4.
Qed.

Lemma watch_unreadable_offset_witness :
  In (-4) [0; -4] /\
  AnalyzeTemps.watch_temps [four_fields; four_fields] [0; -4]
  = Raise StructError.
Proof.
  assert (H : In (-4) [0; -4]) by (right; now left).
  split; [exact H|].
  exact (proj2 (watch_unreadable_offset four_fields [0; -4] [four_fields]) H).
Defined.

(** ** The codename *)

(** X15: [CODENAME_MAP] names exactly the identifiers 0 to 25, each once
    and no two alike; for any other identifier the header shows
    [Unknown (id)]. *)
Theorem codename_lookup (id : Z) :
  (0 <= id <= 25 ->
   exists name,
     In (id, name) AnalyzePmTable.CODENAME_MAP /\
     AnalyzePmTable.codename id = name) /\
  (id < 0 \/ 25 < id ->
   AnalyzePmTable.dict_get AnalyzePmTable.CODENAME_MAP id = None /\
   AnalyzePmTable.codename id =
   String.append "Unknown ("
     (String.append (AnalyzePmTable.str_of_int id) ")")) /\
  NoDup (map fst AnalyzePmTable.CODENAME_MAP) /\
  NoDup (map snd AnalyzePmTable.CODENAME_MAP).
Proof.
  split; [|split; [|split]].
  - intros Hid.
    assert (Hcases : id = 0 \/ id = 1 \/ id = 2 \/ id = 3 \/ id = 4 \/ id = 5
                     \/ id = 6 \/ id = 7 \/ id = 8 \/ id = 9 \/ id = 10
                     \/ id = 11 \/ id = 12 \/ id = 13 \/ id = 14 \/ id = 15
                     \/ id = 16 \/ id = 17 \/ id = 18 \/ id = 19 \/ id = 20
                     \/ id = 21 \/ id = 22 \/ id = 23 \/ id = 24 \/ id = 25)
      by lia.
    repeat (destruct Hcases as [->|Hcases];
            [eexists; split; [|reflexivity]; cbn; tauto|]).
    subst id. eexists; split; [|reflexivity]; cbn; tauto.
  - intros Hid.
    assert (Hnone : AnalyzePmTable.dict_get AnalyzePmTable.CODENAME_MAP id
                    = None).
    { unfold AnalyzePmTable.dict_get, AnalyzePmTable.CODENAME_MAP.
      cbn [find fst].
      repeat match goal with
             | |- context [?k =? id] =>
                 destruct (Z.eqb_spec k id); [lia|]
             end.
      reflexivity. }
    split; [exact Hnone|]. unfold AnalyzePmTable.codename. now rewrite Hnone.
  - cbn. repeat constructor; cbn; intuition discriminate.
  - cbn. repeat constructor; cbn; intuition discriminate.
Qed.

Lemma codename_lookup_witness :
  0 <= 23 <= 25 /\
  (exists name,
      In (23, name) AnalyzePmTable.CODENAME_MAP /\
      AnalyzePmTable.codename 23 = name) /\
  (26 < 0 \/ 25 < 26) /\
  AnalyzePmTable.codename 26 = "Unknown (26)"%string.
Proof.
  split; [lia|]. split; [apply (proj1 (codename_lookup 23)); lia|].
  split; [right; lia|].
  apply (proj2 (proj1 (proj2 (codename_lookup 26)) ltac:(right; lia))).
Defined.

(** ** The frequency comparison *)

Lemma cpuinfo_scan_cpuinfo_at (sample : float) (data : list byte) :
  AnalyzePmTable.cpuinfo_scan sample data =
  Return (flat_map (cpuinfo_at sample data) (scanned data)).
Proof.
  unfold AnalyzePmTable.cpuinfo_scan.
  rewrite (for_each_append _ (cpuinfo_at sample data)); [reflexivity|].
  intros i out Hi. apply In_py_range in Hi; [|lia].
  rewrite read_f32_field by lia. unfold bind, cpuinfo_at.
  destruct (field data i) as [v|]; [|now rewrite app_nil_r].
  destruct (truth v && lt (SFabs (sub v sample)) (of_int 100));
    [reflexivity | now rewrite app_nil_r].
Qed.

Lemma sub_self_finite (s : bool) (m : positive) (e : Z) :
  sub (S754_finite s m e) (S754_finite s m e) = S754_zero false.
Proof.
  unfold sub, SFsub. now rewrite Z.sub_diag.
Qed.

(** X16: the table scan of [compare_cpuinfo] reports a visited field when
    its value is not zero and differs from the sample frequency by less
    than 100; so a visited field holding exactly a finite non-zero sample
    is always reported, while a NaN or infinite sample matches nothing. *)
Theorem cpuinfo_scan_matches (sample : float) (data : list byte) :
  exists out,
    AnalyzePmTable.cpuinfo_scan sample data = Return out /\
    (forall i v,
        In (i, v) out <->
        In i (py_range 0 (len data - 4) 4) /\
        read_f32 data i = Return (Some v) /\ truth v = true /\
        lt (SFabs (sub v sample)) (of_int 100) = true) /\
    (forall s m e i,
        sample = S754_finite s m e ->
        In i (py_range 0 (len data - 4) 4) ->
        read_f32 data i = Return (Some sample) ->
        In (i, sample) out) /\
    (sample = S754_nan \/ (exists s, sample = S754_infinity s) -> out = []).
Proof.
  exists (flat_map (cpuinfo_at sample data) (scanned data)).
  split; [apply cpuinfo_scan_cpuinfo_at|].
  assert (Hiff : forall i v,
             In (i, v) (flat_map (cpuinfo_at sample data) (scanned data)) <->
             In i (py_range 0 (len data - 4) 4) /\
             read_f32 data i = Return (Some v) /\ truth v = true /\
             lt (SFabs (sub v sample)) (of_int 100) = true).
  { intros i v. rewrite in_flat_map. fold (scanned data). split.
    - intros [j [Hj Hin]]. unfold cpuinfo_at in Hin.
      pose proof (proj1 (scanned_offsets data j) Hj) as [Hpos _].
      destruct (field data j) as [w|] eqn:Hf; [|destruct Hin].
      destruct (truth w) eqn:Ht; [|destruct Hin].
      destruct (lt (SFabs (sub w sample)) (of_int 100)) eqn:Hl;
        [|destruct Hin].
      destruct Hin as [E|[]]. inversion E; subst j w.
      rewrite read_f32_field by lia. rewrite Hf. auto.
    - intros (Hi & Hr & Ht & Hl). exists i. split; [exact Hi|].
      pose proof (proj1 (scanned_offsets data i) Hi) as [Hpos _].
      rewrite read_f32_field in Hr by lia. inversion Hr as [Hf].
      unfold cpuinfo_at. rewrite Hf, Ht, Hl. now left. }
  split; [exact Hiff|]. split.
  - intros s m e i -> Hi Hr. apply Hiff.
    split; [exact Hi|]. split; [exact Hr|].
    split; [destruct s; reflexivity|].
    rewrite sub_self_finite. reflexivity.
  - intros Hs.
    assert (Hno : forall i v,
               ~ In (i, v) (flat_map (cpuinfo_at sample data) (scanned data))).
    { intros i v Hin. apply Hiff in Hin. destruct Hin as (_ & _ & _ & Hl).
      destruct Hs as [->|[s ->]];
        destruct v as [[]|[]| |[] mv ev]; try destruct s;
        cbn in Hl; discriminate. }
    destruct (flat_map (cpuinfo_at sample data) (scanned data))
      as [|[i v] l]; [reflexivity|].
    elim (Hno i v). now left.
Qed.

Lemma cpuinfo_scan_matches_witness :
  exists out,
    AnalyzePmTable.cpuinfo_scan (of_int 3000) eight_cores = Return out /\
    In (0, of_int 3000) out.
Proof.
  destruct (cpuinfo_scan_matches (of_int 3000) eight_cores)
    as (out & Hrun & _ & Hfound & _).
  exists out. split; [exact Hrun|].
  apply (Hfound false 6597069766656000%positive (-41) 0).
  - reflexivity.
  - now left.
  - vm_compute; reflexivity.
Defined.

(** ** Strict detection keeps every window that passes *)

(** A loop that only appends keeps what one of its iterations adds. *)
Lemma for_each_member {A B : Type} (body : A -> list B -> outcome (list B))
  (xs : list A) (x : A) (c : B) :
  (forall y t t', body y t = Return t' -> incl t t') ->
  (forall t t', body x t = Return t' -> In c t') ->
  In x xs ->
  forall s s', for_each body xs s = Return s' -> In c s'.
Proof.
  intros Hmono Hadd Hx.
  assert (Hkeep : forall ys s s', for_each body ys s = Return s' -> incl s s').
  { induction ys as [|y ys IH]; cbn [for_each]; intros s s' H.
    - inversion H. apply incl_refl.
    - unbind H as t Ht. eapply incl_tran; [exact (Hmono _ _ _ Ht)|].
      now apply IH. }
  induction xs as [|y ys IH]; [destruct Hx|].
  cbn [for_each]. intros s s' H. unbind H as t Ht.
  destruct Hx as [->|Hx].
  - apply (Hkeep _ _ _ H). exact (Hadd _ _ Ht).
  - exact (IH Hx _ _ H).
Qed.

Lemma scan_core_temps_complete (data : list byte) (n : Z)
  (cs : list AnalyzeTemps.candidate) (c : AnalyzeTemps.candidate) :
  AnalyzeTemps.scan_core_temps data n = Return cs ->
  accepted_temps data n c -> In c cs.
Proof.
  intros Hrun (Hb & Hw & Hf & (total & Hsum & Hdiv)
               & (hi & lo & Hmax & Hmin & Hs) & Hm & Hsp).
  unfold AnalyzeTemps.scan_core_temps in Hrun.
  refine (for_each_member _ _ (AnalyzeTemps.base c) c _ _ Hb _ _ Hrun).
  - intros y t t' H. unbind H as values Hwin.
    destruct (forallb _ values); [|inversion H; apply incl_refl].
    unbind H as tot Ht. unbind H as av Ha. unbind H as h Hh.
    unbind H as l Hl.
    destruct (between _ _ av && lt _ _); inversion H;
      [apply incl_appl | ]; apply incl_refl.
  - intros t t' H. rewrite Hw in H. cbn [bind] in H.
    rewrite Hf, Hsum in H. cbn [bind] in H.
    rewrite Hdiv in H. cbn [bind] in H.
    rewrite Hmax, Hmin in H. cbn [bind] in H.
    rewrite <- Hs, Hm, Hsp in H. cbn [andb] in H. inversion H.
    apply in_or_app. right. left. destruct c; cbn in *. now subst.
Qed.

Lemma strict_arrays_complete (lo hi mean_lo mean_hi : float)
  (data : list byte) (n : Z) (out : list AnalyzePmTable.printed_array)
  (pa : AnalyzePmTable.printed_array) :
  AnalyzePmTable.strict_arrays lo hi mean_lo mean_hi data n = Return out ->
  accepted_strict lo hi mean_lo mean_hi data n pa -> In pa out.
Proof.
  intros Hrun (Hb & Hw & Hf & a & Ha & (total & Hsum & Hdiv) & Hm).
  unfold AnalyzePmTable.strict_arrays in Hrun.
  refine (for_each_member _ _ (AnalyzePmTable.pa_base pa) pa _ _ Hb _ _ Hrun).
  - intros y t t' H. unbind H as values Hwin.
    destruct (forallb _ values); [|inversion H; apply incl_refl].
    unbind H as tot Ht. unbind H as av Hav.
    destruct (between _ _ av); [|inversion H; apply incl_refl].
    unbind H as shown Hshown. inversion H. apply incl_appl, incl_refl.
  - intros t t' H. rewrite Hw in H. cbn [bind] in H.
    rewrite Hf, Hsum in H. cbn [bind] in H.
    rewrite Hdiv in H. cbn [bind] in H.
    rewrite Hm, comprehension_require_Some in H. cbn [bind] in H.
    inversion H. apply in_or_app. right. left.
    destruct pa; cbn in *. now subst.
Qed.

(** X17: strict detection drops no window that passes: a finished
    [search_core_temps] holds exactly the windows of visited base offsets
    whose values all lie inside (25, 100), whose mean lies inside (35, 85)
    and whose spread is below 30; the temperature and power lists of a
    finished [search_core_arrays] hold exactly the visited windows whose
    values all pass the per-core test and whose mean lies in the mean
    range. *)
Theorem strict_detection_exact (data : list byte) (n : Z) :
  (forall cs c,
      AnalyzeTemps.search_core_temps data n = Return cs ->
      (In c cs <-> accepted_temps data n c)) /\
  (forall r pa,
      AnalyzePmTable.search_core_arrays data n = Return r ->
      (In pa (AnalyzePmTable.temperature r) <->
       accepted_strict (of_int 25) (of_int 95) (of_int 30) (of_int 70)
         data n pa) /\
      (In pa (AnalyzePmTable.power r) <->
       accepted_strict (of_dyadic 1 (-1)) (of_int 20) (of_int 2) (of_int 15)
         data n pa)).
Proof.
  split.
  - intros cs c Hrun.
    destruct (search_core_temps_sorted data n cs Hrun)
      as (candidates & Hscan & Hacc & Hp & _).
    rewrite Forall_forall in Hacc. split.
    + intros Hin. apply Hacc. exact (Permutation_in _ Hp Hin).
    + intros Ha. apply (Permutation_in _ (Permutation_sym Hp)).
      exact (scan_core_temps_complete data n candidates c Hscan Ha).
  - intros r pa Hrun.
    destruct (search_core_arrays_parts data n r Hrun) as (Ht & Hp & _).
    split; split.
    + intros Hin. apply strict_arrays_accepted in Ht. destruct Ht as [Hacc _].
      rewrite Forall_forall in Hacc. now apply Hacc.
    + exact (strict_arrays_complete _ _ _ _ data n _ pa Ht).
    + intros Hin. apply strict_arrays_accepted in Hp. destruct Hp as [Hacc _].
      rewrite Forall_forall in Hacc. now apply Hacc.
    + exact (strict_arrays_complete _ _ _ _ data n _ pa Hp).
Qed.

(** ** The two array searches on one table *)

(** X18: the two scripts agree where their tests overlap: a temperature
    array printed by [search_core_arrays] whose mean is above 35 and whose
    spread is below 30 is also a candidate of [search_core_temps] on the
    same table and core count, with the same base offset, values and
    mean. *)
Theorem temperature_array_is_candidate (data : list byte) (n : Z)
  (r : AnalyzePmTable.core_arrays) (cs : list AnalyzeTemps.candidate)
  (pa : AnalyzePmTable.printed_array) (a s : float) :
  AnalyzePmTable.search_core_arrays data n = Return r ->
  AnalyzeTemps.search_core_temps data n = Return cs ->
  In pa (AnalyzePmTable.temperature r) ->
  AnalyzePmTable.pa_avg pa = Some a ->
  lt (of_int 35) a = true ->
  spread_of (map Some (AnalyzePmTable.pa_values pa)) s ->
  lt s (of_int 30) = true ->
  In {| AnalyzeTemps.base := AnalyzePmTable.pa_base pa;
        AnalyzeTemps.values := map Some (AnalyzePmTable.pa_values pa);
        AnalyzeTemps.avg := a;
        AnalyzeTemps.spread := s |} cs.
Proof.
  intros Hr Hcs Hin Havg Hlow Hspread Hs.
  destruct (search_core_arrays_parts data n r Hr) as (Ht & _ & _).
  apply strict_arrays_accepted in Ht. destruct Ht as [Hacc _].
  rewrite Forall_forall in Hacc.
  destruct (Hacc pa Hin) as (Hb & Hw & Hf & a' & Ha' & Hmean & Hm).
  rewrite Havg in Ha'. inversion Ha'; subst a'. clear Ha'.
  destruct (search_core_temps_sorted data n cs Hcs)
    as (candidates & Hscan & _ & Hp & _).
  apply (Permutation_in _ (Permutation_sym Hp)).
  apply (scan_core_temps_complete data n candidates _ Hscan).
  unfold accepted_temps. cbn.
  split; [exact Hb|]. split; [exact Hw|]. split.
  - apply forallb_forall. intros v Hv.
    apply in_map_iff in Hv. destruct Hv as (x & <- & Hx).
    rewrite forallb_forall in Hf.
    specialize (Hf (Some x) (in_map Some _ x Hx)).
    apply andb_true_iff in Hf. destruct Hf as [_ Hf]. cbn.
    apply (between_widen (of_int 25) (of_int 95)); try exact I;
      [now left | right; reflexivity | exact Hf].
  - split; [exact Hmean|]. split; [exact Hspread|]. split; [|exact Hs].
    pose proof (between_posfin (of_int 30) (of_int 70) a I Hm) as Pa.
    unfold between in *. apply andb_true_iff in Hm. destruct Hm as [_ Hhi].
    apply andb_true_iff. split; [exact Hlow|].
    exact (lt_trans a (of_int 70) (of_int 85) Pa I I Hhi eq_refl).
Qed.

Lemma temperature_array_is_candidate_witness :
  exists r cs,
    AnalyzePmTable.search_core_arrays steady_cores 2 = Return r /\
    AnalyzeTemps.search_core_temps steady_cores 2 = Return cs /\
    In {| AnalyzeTemps.base := 0;
          AnalyzeTemps.values := [Some (of_int 50); Some (of_int 52)];
          AnalyzeTemps.avg := of_int 51;
          AnalyzeTemps.spread := of_int 2 |} cs.
Proof.
  do 2 eexists. split; [vm_compute; reflexivity|].
  split; [vm_compute; reflexivity|].
  eapply (temperature_array_is_candidate steady_cores 2 _ _
            {| AnalyzePmTable.pa_base := 0;
               AnalyzePmTable.pa_avg := Some (of_int 51);
               AnalyzePmTable.pa_values := [of_int 50; of_int 52] |}
            (of_int 51) (of_int 2)).
  - vm_compute; reflexivity.
  - vm_compute; reflexivity.
  - vm_compute. left. reflexivity.
  - reflexivity.
  - vm_compute; reflexivity.
  - exists (of_int 52), (of_int 50). repeat split; vm_compute; reflexivity.
  - vm_compute; reflexivity.
Defined.
